(** * deno-mysql: connection pool and client facade

    A shallow embedding of [src/lib/pool.ts] (the [MysqlPoolClient] and
    [MysqlClientPool] classes) and of the client facade ([Client], with its
    [connect], [query], [execute], [useConnection] and [transaction]
    methods), together with the properties the specification states about
    them.

    Asynchronous methods are modelled as computations over an explicit
    state that either return a value or raise an error and that emit the
    observable actions they perform (a trace), in program order. *)

From Stdlib Require Import String ZArith List Lia.
From stdpp Require Import base option list gmap strings.

Local Open Scope string_scope.
Local Open Scope list_scope.

(** ** Errors and outcomes *)

(** The error classes the sources construct or test with [instanceof],
    and the [TypeError] the runtime raises for a property read off [null]
    or [undefined]. *)
Inductive ErrorClass := JsError | JsTypeError | MysqlError | SqlxError.

(** A thrown error object: its class and its [message]. *)
Record Error := mkError { err_class : ErrorClass; message : string }.

#[global] Instance ErrorClass_eq_dec : EqDecision ErrorClass.
Proof. solve_decision. Defined.

#[global] Instance Error_eq_dec : EqDecision Error.
Proof. solve_decision. Defined.

(** What a [throw] carries and a [catch] receives: an error object,
    [null], [undefined], or any other value (a string, a number, a plain
    object), given by the text that [`${value.message}`] renders for it
    (["undefined"] when it has no such property). *)
Inductive Thrown :=
| ThrownError (e : Error)
| ThrownNull
| ThrownUndefined
| ThrownOther (rendered_message : string).

Coercion ThrownError : Error >-> Thrown.

#[global] Instance Thrown_eq_dec : EqDecision Thrown.
Proof. solve_decision. Defined.

(** How a call ends: it returns a value or it raises. *)
Inductive Outcome (A : Type) :=
| Returns (a : A)
| Raises (e : Thrown).
Arguments Returns {A} a.
Arguments Raises {A} e.

(** [`${error.message}`]: reading the property off [null] or [undefined]
    raises a [TypeError] (the text is the one of V8, the engine of
    Deno). *)
Definition message_of (error : Thrown) : Outcome string :=
  match error with
  | ThrownError e => Returns (message e)
  | ThrownNull =>
      Raises (mkError JsTypeError
                "Cannot read properties of null (reading 'message')")
  | ThrownUndefined =>
      Raises (mkError JsTypeError
                "Cannot read properties of undefined (reading 'message')")
  | ThrownOther rendered => Returns rendered
  end.

(** Modelled from the spec: the declaration of [ConnectionState]
    ([connection.ts]) is not among the sources; the spec gives a connection
    the states Disconnected, Connected and Closed.  The facade compares a
    connection's [state] with [ConnectionState.CLOSED] and
    [ConnectionState.CONNECTED]. *)
Inductive ConnectionState := DISCONNECTED | CONNECTED | CLOSED.

#[global] Instance ConnectionState_eq_dec : EqDecision ConnectionState.
Proof. solve_decision. Defined.

(** ** A state, error and trace monad

    [M S Act A] is a computation over a state [S] that emits actions of
    type [Act]: from a state it yields an outcome, the new state and the
    actions performed, oldest first. *)
Section Monad.
Context {S Act : Type}.

Definition M (A : Type) : Type := S -> Outcome A * S * list Act.

Definition ret {A} (a : A) : M A := fun s => (Returns a, s, []).

Definition throw {A} (e : Thrown) : M A := fun s => (Raises e, s, []).

(** An expression whose evaluation returns or raises, the state left as it
    is. *)
Definition evaluate {A} (o : Outcome A) : M A := fun s => (o, s, []).

Definition bind {A B} (m : M A) (f : A -> M B) : M B := fun s =>
  match m s with
  | (Returns a, s1, t1) =>
      match f a s1 with (r, s2, t2) => (r, s2, t1 ++ t2) end
  | (Raises e, s1, t1) => (Raises e, s1, t1)
  end.

(** [try { m } catch (e) { h e }] *)
Definition try_catch {A} (m : M A) (h : Thrown -> M A) : M A := fun s =>
  match m s with
  | (Returns a, s1, t1) => (Returns a, s1, t1)
  | (Raises e, s1, t1) =>
      match h e s1 with (r, s2, t2) => (r, s2, t1 ++ t2) end
  end.

(** An action performed, leaving the state as it is. *)
Definition emit (a : Act) : M unit := fun s => (Returns tt, s, [a]).

Definition gets {A} (f : S -> A) : M A := fun s => (Returns (f s), s, []).

Definition modify (f : S -> S) : M unit := fun s => (Returns tt, f s, []).
End Monad.
Arguments M : clear implicits.

Notation "x <- m ;; k" := (bind m (fun x => k))
  (at level 100, m at next level, right associativity).
Notation "m ;;; k" := (bind m (fun _ => k))
  (at level 100, right associativity).

(** * The pool: [src/lib/pool.ts] *)
Module Pool.

(** A [MysqlPoolClient]'s [release] method: the class's own, which throws,
    or the closure [() => this.release(client)] that
    [MysqlClientPool.connect] assigns to the instance. *)
Inductive ReleaseMethod := NotImplemented | BoundToPool.

(** A [MysqlPoolClient]: the reference of the [MysqlConnection] it wraps
    (its [connection] property) and its [release] method. *)
Record MysqlPoolClient := mkClient {
  connection : nat;
  release_method : ReleaseMethod
}.

#[global] Instance ReleaseMethod_eq_dec : EqDecision ReleaseMethod.
Proof. solve_decision. Defined.

#[global] Instance MysqlPoolClient_eq_dec : EqDecision MysqlPoolClient.
Proof. solve_decision. Defined.

(** The events dispatched on the pool's [eventTarget], each with its
    [connectable]. *)
Inductive Event :=
| MysqlConnectionConnectEvent (connectable : MysqlPoolClient)
| MysqlConnectionCloseEvent (connectable : MysqlPoolClient)
| MysqlPoolConnectionAcquireEvent (connectable : MysqlPoolClient)
| MysqlPoolConnectionReleaseEvent (connectable : MysqlPoolClient)
| MysqlPoolConnectionDestroyEvent (connectable : MysqlPoolClient).

(** What the pool's methods do, as seen from outside, in program order:
    events dispatched, calls on a connection, calls on the deferred stack
    and lines logged. *)
Inductive Action :=
| Dispatch (ev : Event)
| ConnConnect (conn : nat)
| ConnClose (conn : nat)
| StackPush (client : MysqlPoolClient)
| StackPop
| LogDebug (msg : string).

(** The [SqlxDeferredStack] as the pool reads it: its [maxSize] and its
    [elements] array (last element = top of the stack). *)
Record SqlxDeferredStack := mkStack {
  maxSize : nat;
  elements : list MysqlPoolClient
}.

(** The pool object: the deferred stack, the [#connected] flag, the
    [lazyInitialization] connection option (unset counts as [false]) and
    the connection objects reachable from it or from its callers, by
    reference. *)
Record MysqlClientPool := mkPool {
  deferredStack : SqlxDeferredStack;
  connected : bool;
  lazyInitialization : bool;
  heap : gmap nat ConnectionState
}.

Definition set_elements (els : list MysqlPoolClient) (p : MysqlClientPool)
  : MysqlClientPool :=
  mkPool (mkStack (maxSize (deferredStack p)) els)
         (connected p) (lazyInitialization p) (heap p).

Definition set_connected (b : bool) (p : MysqlClientPool) : MysqlClientPool :=
  mkPool (deferredStack p) b (lazyInitialization p) (heap p).

Definition set_heap (h : gmap nat ConnectionState) (p : MysqlClientPool)
  : MysqlClientPool :=
  mkPool (deferredStack p) (connected p) (lazyInitialization p) h.

Abbreviation PoolM := (M MysqlClientPool Action).

(** [throw new Error("Method not implemented.")] *)
Definition not_implemented : Error := mkError JsError "Method not implemented.".

(** [new SqlxError("Max pool size reached")] *)
Definition max_pool_size_reached : Error :=
  mkError SqlxError "Max pool size reached".

(** [e instanceof SqlxError && e.message === "Max pool size reached"] *)
Definition is_max_pool_size_error (e : Error) : bool :=
  bool_decide (err_class e = SqlxError)
  && bool_decide (message e = "Max pool size reached").

Section WithCollaborators.

(** The methods of [SqlxDeferredStack] (package [@halvardm/sqlx]) are not
    among the sources: [push] and [pop] are taken as parameters, acting
    on the [elements] array under the stack's [maxSize].  [pop] yields no
    client when the promise it returns stays pending. *)
Variable stack_push :
  nat -> list MysqlPoolClient -> MysqlPoolClient ->
  Outcome unit * list MysqlPoolClient.
Variable stack_pop :
  nat -> list MysqlPoolClient ->
  option MysqlPoolClient * list MysqlPoolClient.

(** Whether opening the connection with a given reference fails, and
    with which error: the network and the server, seen from the pool. *)
Variable net : nat -> option Error.

(** Whether closing the connection with a given reference fails, and with
    which error. *)
Variable close_fails : nat -> option Error.

(** Modelled from the spec: [MysqlConnection] ([connection.ts]) is not
    among the sources.  A new connection is unopened; [connect()]
    establishes the session or fails with an error of the connection
    layer; [close()] tears the socket down and is idempotent, and an
    individual close can fail.  [new MysqlConnection(url, options)] makes
    an object that no reference held so far points to. *)
Definition new_MysqlConnection : PoolM nat := fun p =>
  let r := fresh (dom (heap p)) in
  (Returns r, set_heap (<[r := DISCONNECTED]> (heap p)) p, []).

(** Modelled from the spec: [connection.connect()], which opens the
    session or fails with the error the network gives. *)
Definition connection_connect (r : nat) : PoolM unit := fun p =>
  match net r with
  | None => (Returns tt, set_heap (<[r := CONNECTED]> (heap p)) p, [ConnConnect r])
  | Some e => (Raises e, p, [ConnConnect r])
  end.

(** Modelled from the spec: [connection.close()], which tears the session
    down, or fails with an error, the connection then left as it was. *)
Definition connection_close (r : nat) : PoolM unit := fun p =>
  match close_fails r with
  | None => (Returns tt, set_heap (<[r := CLOSED]> (heap p)) p, [ConnClose r])
  | Some e => (Raises e, p, [ConnClose r])
  end.

(** [this.deferredStack.push(client)] *)
Definition deferredStack_push (client : MysqlPoolClient) : PoolM unit := fun p =>
  match stack_push (maxSize (deferredStack p)) (elements (deferredStack p)) client with
  | (r, els) => (r, set_elements els p, [StackPush client])
  end.

(** [this.eventTarget.dispatchEvent(ev)] *)
Definition dispatchEvent (ev : Event) : PoolM unit := emit (Dispatch ev).

(** [logger().debug(msg)] *)
Definition logger_debug (msg : string) : PoolM unit := emit (LogDebug msg).

(** [MysqlClientPool.release] *)
Definition release (client : MysqlPoolClient) : PoolM unit :=
  dispatchEvent (MysqlPoolConnectionReleaseEvent client) ;;;
  try_catch (deferredStack_push client) (fun e =>
    match e with
    | ThrownError err =>
        if is_max_pool_size_error err then
          logger_debug (message err) ;;;
          connection_close (connection client) ;;;
          throw e
        else
          throw e
    | _ => throw e
    end).

(** One turn of the loop of [MysqlClientPool.connect]. *)
Definition connect_slot : PoolM unit :=
  conn <- new_MysqlConnection ;;
  let client := mkClient conn BoundToPool in
  lazy <- gets lazyInitialization ;;
  (if negb lazy then
     connection_connect (connection client) ;;;
     dispatchEvent (MysqlConnectionConnectEvent client)
   else ret tt) ;;;
  deferredStack_push client.

(** The loop [for (let i = 0; i < this.deferredStack.maxSize; i++)], by
    the number of turns that remain: [maxSize] is not touched by the body
    of the loop. *)
Fixpoint connect_loop (remaining : nat) : PoolM unit :=
  match remaining with
  | O => ret tt
  | S n => connect_slot ;;; connect_loop n
  end.

(** [MysqlClientPool.connect] *)
Definition connect : PoolM unit :=
  n <- gets (fun p => maxSize (deferredStack p)) ;;
  connect_loop n ;;;
  modify (set_connected true).

(** The body of the loop of [MysqlClientPool.close] over the clients it
    iterates. *)
Fixpoint close_loop (clients : list MysqlPoolClient) : PoolM unit :=
  match clients with
  | [] => ret tt
  | client :: rest =>
      dispatchEvent (MysqlConnectionCloseEvent client) ;;;
      connection_close (connection client) ;;;
      close_loop rest
  end.

(** [MysqlClientPool.close] *)
Definition close : PoolM unit :=
  modify (set_connected false) ;;;
  clients <- gets (fun p => elements (deferredStack p)) ;;
  close_loop clients.

(** [MysqlClientPool.acquire]: the client returned, or [None] when [pop]
    stays pending, in which case nothing after the [await] runs. *)
Definition acquire (p : MysqlClientPool)
  : option MysqlPoolClient * MysqlClientPool * list Action :=
  match stack_pop (maxSize (deferredStack p)) (elements (deferredStack p)) with
  | (None, els) => (None, set_elements els p, [StackPop])
  | (Some client, els) =>
      (Some client, set_elements els p,
       [StackPop; Dispatch (MysqlPoolConnectionAcquireEvent client)])
  end.

(** [MysqlClientPool.destroy] *)
Definition destroy (client : MysqlPoolClient) : PoolM unit :=
  dispatchEvent (MysqlPoolConnectionDestroyEvent client) ;;;
  connection_close (connection client).

(** [MysqlClientPool[Symbol.asyncDispose]] *)
Definition pool_asyncDispose : PoolM unit := close.

(** [MysqlPoolClient.release]: the method of the instance. *)
Definition client_release (client : MysqlPoolClient) : PoolM unit :=
  match release_method client with
  | NotImplemented => throw not_implemented
  | BoundToPool => release client
  end.

(** [MysqlPoolClient[Symbol.asyncDispose]] *)
Definition client_asyncDispose (client : MysqlPoolClient) : PoolM unit :=
  client_release client.

End WithCollaborators.

(** Modelled from the spec: the methods of [SqlxDeferredStack] (package
    [@halvardm/sqlx]), which are not among the sources.  The idle
    collection is ordered and handed out last in, first out; an insertion
    that would exceed [maxSize] fails with the error "Max pool size
    reached" that [MysqlClientPool.release] tests for; [pop] on an empty
    collection suspends.  The queue of suspended callers is left out: a
    suspended [pop] yields no client. *)
Definition spec_push (maxSize : nat) (els : list MysqlPoolClient)
    (client : MysqlPoolClient) : Outcome unit * list MysqlPoolClient :=
  if decide (maxSize < length (els ++ [client]))
  then (Raises max_pool_size_reached, els)
  else (Returns tt, els ++ [client]).

(** Modelled from the spec: [pop] takes the client inserted last, and
    suspends on an empty collection. *)
Definition spec_pop (maxSize : nat) (els : list MysqlPoolClient)
  : option MysqlPoolClient * list MysqlPoolClient :=
  match rev els with
  | [] => (None, els)
  | client :: rest => (Some client, rev rest)
  end.

(** What one turn of the loop of [connect] is seen to do for the client it
    provisions. *)
Definition slot_actions (lazy : bool) (client : MysqlPoolClient) : list Action :=
  if lazy then [StackPush client]
  else [ConnConnect (connection client);
        Dispatch (MysqlConnectionConnectEvent client);
        StackPush client].

(** What [close] is seen to do for one client. *)
Definition close_actions (client : MysqlPoolClient) : list Action :=
  [Dispatch (MysqlConnectionCloseEvent client); ConnClose (connection client)].

(** The clients handed to [deferredStack.push], in the order of the
    calls, read off a trace. *)
Definition pushed_clients (t : list Action) : list MysqlPoolClient :=
  omap (fun a => match a with StackPush c => Some c | _ => None end) t.

(** Whether an action is a call of [deferredStack.push]. *)
Definition is_push (a : Action) : bool :=
  match a with StackPush _ => true | _ => false end.

(** The heap once [close()] has been called on the connection of each of
    [clients] in turn. *)
Definition closed_heap (clients : list MysqlPoolClient)
    (h : gmap nat ConnectionState) : gmap nat ConnectionState :=
  foldl (fun h' client => <[connection client := CLOSED]> h') h clients.

End Pool.


(** * The client facade: [Client] *)
Module Client.

(** The values a [ClientConfig] holds and the parameters of a statement.
    Numbers are the integers; fractions and NaN are left out. *)
Inductive JsValue :=
| JsUndefined
| JsNumber (n : Z)
| JsString (s : string)
| JsBoolean (b : bool)
| JsTLSConfig (mode : option string) (caCerts : option (list string)).

#[global] Instance JsValue_eq_dec : EqDecision JsValue.
Proof. solve_decision. Defined.

(** JavaScript's truthiness. *)
Definition truthy (v : JsValue) : bool :=
  match v with
  | JsUndefined => false
  | JsNumber n => negb (n =? 0)%Z
  | JsString s => negb (String.eqb s "")
  | JsBoolean b => b
  | JsTLSConfig _ _ => true
  end.

(** [a || b] *)
Definition js_or (a b : JsValue) : JsValue := if truthy a then a else b.

(** A [ClientConfig] object: the properties it has, by name. *)
Abbreviation ClientConfig := (gmap string JsValue).

(** [obj.key]: [undefined] when the object has no such property. *)
Definition prop (obj : ClientConfig) (key : string) : JsValue :=
  default JsUndefined (obj !! key).

(** The object literal that [Client.connect] spreads the caller's config
    over. *)
Definition config_defaults : ClientConfig :=
  <["hostname" := JsString "127.0.0.1"]>
  (<["username" := JsString "root"]>
  (<["port" := JsNumber 3306]>
  (<["poolSize" := JsNumber 1]>
  (<["timeout" := JsNumber (30 * 1000)]>
  (<["idleTimeout" := JsNumber (4 * 3600 * 1000)]> ∅))))).

(** [{ ...defaults, ...config }]: a property of [config] wins. *)
Definition spread_over (defaults config : ClientConfig) : ClientConfig :=
  config ∪ defaults.

(** What a borrow does, as seen from outside, in program order. *)
Inductive Action :=
| PoolPop
| Execute (sql : string) (params : option (list JsValue))
| Query (sql : string) (params : option (list JsValue))
| LoggerInfo (msg : string)
| ReturnToPool
| RemoveFromPool.

#[global] Instance Action_eq_dec : EqDecision Action.
Proof. solve_decision. Defined.

(** [new MysqlError("Unconnected")] *)
Definition unconnected : Error := mkError MysqlError "Unconnected".

Section WithCollaborators.

(** [Connection], [PoolConnection] and [ConnectionPool] ([connection.ts]
    and the [pool.ts] the facade imports) are not among the sources: the
    connection object, the pool object and the results of statements are
    types taken as parameters, and so are the methods the facade calls. *)
Context {Conn Pool ExecuteResult QueryResult : Type}.

(** [connection.state] *)
Variable state : Conn -> ConnectionState.

(** [connection.execute(sql, params)] and [connection.query(sql, params)]:
    the outcome and the connection afterwards. *)
Variable conn_execute :
  string -> option (list JsValue) -> Conn -> Outcome ExecuteResult * Conn.
Variable conn_query :
  string -> option (list JsValue) -> Conn -> Outcome QueryResult * Conn.

(** [new ConnectionPool(maxSize, creator)], by its first argument. *)
Variable new_ConnectionPool : JsValue -> Pool.

(** [pool.pop()]: a connection or an error, and the pool afterwards (a
    [pop] that never settles is left out). *)
Variable pool_pop : Pool -> Outcome Conn * Pool.

(** [connection.returnToPool()] and [connection.removeFromPool()], by what
    they make of the pool; they are taken not to throw. *)
Variable returnToPool : Conn -> Pool -> Pool.
Variable removeFromPool : Conn -> Pool -> Pool.

(** The [Client] object. *)
Record Client := mkClient {
  config : ClientConfig;
  _pool : option Pool
}.

Abbreviation ConnM := (M Conn Action).

Definition connection_execute (sql : string) (params : option (list JsValue))
  : ConnM ExecuteResult := fun c =>
  match conn_execute sql params c with
  | (r, c') => (r, c', [Execute sql params])
  end.

Definition connection_query (sql : string) (params : option (list JsValue))
  : ConnM QueryResult := fun c =>
  match conn_query sql params c with
  | (r, c') => (r, c', [Query sql params])
  end.

(** [logger().info(msg)] *)
Definition logger_info (msg : string) : ConnM unit := emit (LoggerInfo msg).

(** A [TransactionProcessor<T>], by what it does with the connection it is
    handed: it returns, it throws, or it runs a statement and goes on from
    the statement's outcome (which it may catch or let through). *)
Inductive TransactionProcessor (T : Type) :=
| ProcReturn (v : T)
| ProcThrow (e : Thrown)
| ProcExecute (sql : string) (params : option (list JsValue))
              (k : Outcome ExecuteResult -> TransactionProcessor T)
| ProcQuery (sql : string) (params : option (list JsValue))
            (k : Outcome QueryResult -> TransactionProcessor T).
Arguments ProcReturn {T} v.
Arguments ProcThrow {T} e.
Arguments ProcExecute {T} sql params k.
Arguments ProcQuery {T} sql params k.

(** [await processor(connection)] *)
Fixpoint run_processor {T} (processor : TransactionProcessor T) : ConnM T :=
  fun c =>
  match processor with
  | ProcReturn v => (Returns v, c, [])
  | ProcThrow e => (Raises e, c, [])
  | ProcExecute sql params k =>
      match conn_execute sql params c with
      | (r, c1) =>
          match run_processor (k r) c1 with
          | (r', c2, t) => (r', c2, Execute sql params :: t)
          end
      end
  | ProcQuery sql params k =>
      match conn_query sql params c with
      | (r, c1) =>
          match run_processor (k r) c1 with
          | (r', c2, t) => (r', c2, Query sql params :: t)
          end
      end
  end.

(** [Client.connect] *)
Definition connect (config0 : ClientConfig) (this : Client) : Client :=
  let config1 := spread_over config_defaults config0 in
  mkClient config1
           (Some (new_ConnectionPool (js_or (prop config1 "poolSize") (JsNumber 10)))).

(** [Client.useConnection] *)
Definition useConnection {T} (fn : ConnM T) (this : Client)
  : Outcome T * Client * list Action :=
  match _pool this with
  | None => (Raises unconnected, this, [])
  | Some pool =>
      match pool_pop pool with
      | (Raises e, pool1) => (Raises e, mkClient (config this) (Some pool1), [PoolPop])
      | (Returns connection, pool1) =>
          match fn connection with
          | (r, connection1, t) =>
              (* finally *)
              if decide (state connection1 = CLOSED) then
                (r, mkClient (config this) (Some (removeFromPool connection1 pool1)),
                 PoolPop :: t ++ [RemoveFromPool])
              else
                (r, mkClient (config this) (Some (returnToPool connection1 pool1)),
                 PoolPop :: t ++ [ReturnToPool])
          end
      end
  end.

(** [Client.query] *)
Definition query (sql : string) (params : option (list JsValue)) (this : Client)
  : Outcome QueryResult * Client * list Action :=
  useConnection (connection_query sql params) this.

(** [Client.execute] *)
Definition execute (sql : string) (params : option (list JsValue)) (this : Client)
  : Outcome ExecuteResult * Client * list Action :=
  useConnection (connection_execute sql params) this.

(** The function [Client.transaction] hands to [useConnection]. *)
Definition transaction_body {T} (processor : TransactionProcessor T) : ConnM T :=
  try_catch
    (connection_execute "BEGIN" None ;;;
     result <- run_processor processor ;;
     connection_execute "COMMIT" None ;;;
     ret result)
    (fun error =>
       st <- gets state ;;
       (if decide (st = CONNECTED) then
          msg <- evaluate (message_of error) ;;
          logger_info (String.append "ROLLBACK: " msg) ;;;
          connection_execute "ROLLBACK" None ;;;
          ret tt
        else ret tt) ;;;
       throw error).

(** [Client.transaction] *)
Definition transaction {T} (processor : TransactionProcessor T) (this : Client)
  : Outcome T * Client * list Action :=
  useConnection (transaction_body processor) this.

(** [pool.close()] of the [ConnectionPool] the facade imports, by what it
    makes of the pool. *)
Variable pool_close : Pool -> Pool.

(** [Client.close]: the client afterwards and, when there was a pool, the
    pool [close()] was called on, which the client no longer refers to. *)
Definition close (this : Client) : Client * option Pool :=
  match _pool this with
  | Some pool => (mkClient (config this) None, Some (pool_close pool))
  | None => (this, None)
  end.

(** The actions that are statements run on the connection. *)
Definition is_statement (a : Action) : bool :=
  match a with
  | Execute _ _ | Query _ _ => true
  | _ => false
  end.

(** What the [finally] block of [useConnection] does with a connection in
    a given state, and what it makes of the pool. *)
Definition cleanup_action (st : ConnectionState) : Action :=
  if decide (st = CLOSED) then RemoveFromPool else ReturnToPool.

Definition cleanup_pool (connection : Conn) (pool : Pool) : Pool :=
  if decide (state connection = CLOSED)
  then removeFromPool connection pool
  else returnToPool connection pool.

End WithCollaborators.

Arguments Client : clear implicits.
Arguments mkClient {Pool} config _pool.
Arguments TransactionProcessor : clear implicits.
Arguments ProcReturn {ExecuteResult QueryResult T} v.
Arguments ProcThrow {ExecuteResult QueryResult T} e.
Arguments ProcExecute {ExecuteResult QueryResult T} sql params k.
Arguments ProcQuery {ExecuteResult QueryResult T} sql params k.

End Client.

(** * Concrete pools and clients, for the examples *)
Module PoolScenarios.
Import Pool.

(** Two clients as [connect] makes them, and one made elsewhere. *)
Definition clientA : MysqlPoolClient := mkClient 0 BoundToPool.
Definition clientB : MysqlPoolClient := mkClient 1 BoundToPool.
Definition stray : MysqlPoolClient := mkClient 7 NotImplemented.

(** A pool of two slots, before [connect]. *)
Definition fresh_pool : MysqlClientPool := mkPool (mkStack 2 []) false false ∅.

(** A pool of three slots with two idle clients and a third checked out
    (connection 2). *)
Definition busy_pool : MysqlClientPool :=
  mkPool (mkStack 3 [clientA; clientB]) true false
         (<[0 := CONNECTED]> (<[1 := CONNECTED]> (<[2 := CONNECTED]> ∅))).

(** A pool of two slots, both idle. *)
Definition full_pool : MysqlClientPool :=
  mkPool (mkStack 2 [clientA; clientB]) true false
         (<[0 := CONNECTED]> (<[1 := CONNECTED]> (<[7 := CONNECTED]> ∅))).

(** A network on which every connection opens. *)
Definition reliable_net : nat -> option Error := fun _ => None.

(** Connections that all close, and connections of which one does not. *)
Definition clean_close : nat -> option Error := fun _ => None.
Definition close_stuck : Error := mkError MysqlError "socket busy".
Definition close_fails_on (r0 : nat) : nat -> option Error :=
  fun r => if decide (r = r0) then Some close_stuck else None.

(** A deferred stack that takes every client it is given. *)
Definition unbounded_push (maxSize : nat) (els : list MysqlPoolClient)
    (client : MysqlPoolClient) : Outcome unit * list MysqlPoolClient :=
  (Returns tt, els ++ [client]).

(** A deferred stack whose [push] fails for a reason of its own. *)
Definition broken_push (maxSize : nat) (els : list MysqlPoolClient)
    (client : MysqlPoolClient) : Outcome unit * list MysqlPoolClient :=
  (Raises (mkError JsError "stack is frozen"), els).

End PoolScenarios.

(** * Concrete connections and servers, for the examples *)
Module ClientScenarios.
Import Client.

(** A connection is its state; a pool is the list of its idle connections;
    a statement's result is the number of rows it touched. *)
Definition SimConn : Type := ConnectionState.
Definition SimPool : Type := list SimConn.

Definition sim_state (c : SimConn) : ConnectionState := c.

Definition sim_pop (pool : SimPool) : Outcome SimConn * SimPool :=
  match pool with
  | c :: rest => (Returns c, rest)
  | [] => (Raises (mkError JsError "Connection pool is closed"), [])
  end.

Definition sim_returnToPool (c : SimConn) (pool : SimPool) : SimPool := c :: pool.
Definition sim_removeFromPool (c : SimConn) (pool : SimPool) : SimPool := pool.

Definition sim_new_pool (size : JsValue) : SimPool := [].

Definition sim_query (sql : string) (params : option (list JsValue)) (c : SimConn)
  : Outcome (list nat) * SimConn := (Returns [], c).

(** A server on which every statement succeeds. *)
Definition healthy (sql : string) (params : option (list JsValue)) (c : SimConn)
  : Outcome nat * SimConn := (Returns 0, c).

Definition commit_failed : Error := mkError MysqlError "Deadlock found at COMMIT".
Definition duplicate_key : Error := mkError MysqlError "Duplicate entry".
Definition rollback_failed : Error := mkError MysqlError "Lock wait timeout".
Definition link_lost : Error := mkError MysqlError "Connection reset".
Definition business_rule : Error := mkError JsError "insufficient funds".

(** A server that refuses [COMMIT] and keeps the session open. *)
Definition rejects_commit (sql : string) (params : option (list JsValue))
    (c : SimConn) : Outcome nat * SimConn :=
  if String.eqb sql "COMMIT" then (Raises commit_failed, c) else (Returns 0, c).

(** A server on which an [INSERT] hits a duplicate key and on which
    [ROLLBACK] then fails too, the session staying open. *)
Definition rejects_insert_and_rollback (sql : string)
    (params : option (list JsValue)) (c : SimConn) : Outcome nat * SimConn :=
  if String.eqb sql "INSERT INTO t VALUES (1)" then (Raises duplicate_key, c)
  else if String.eqb sql "ROLLBACK" then (Raises rollback_failed, c)
  else (Returns 0, c).

(** A server that only refuses [ROLLBACK]. *)
Definition rejects_rollback (sql : string) (params : option (list JsValue))
    (c : SimConn) : Outcome nat * SimConn :=
  if String.eqb sql "ROLLBACK" then (Raises rollback_failed, c) else (Returns 0, c).

(** A server whose session breaks on [UPDATE]: the statement fails and the
    connection is closed. *)
Definition drops_on_update (sql : string) (params : option (list JsValue))
    (c : SimConn) : Outcome nat * SimConn :=
  if String.eqb sql "UPDATE t SET x = 1" then (Raises link_lost, CLOSED)
  else (Returns 0, c).

Abbreviation SimProcessor := (TransactionProcessor nat (list nat) nat).

(** Processors: one that returns 7 at once, one that runs a statement and
    lets its failure through, one that throws an error of its own. *)
Definition returns_seven : SimProcessor := ProcReturn 7.

Definition run_one (sql : string) : SimProcessor :=
  ProcExecute sql None (fun r =>
    match r with
    | Returns n => ProcReturn n
    | Raises e => ProcThrow e
    end).

Definition throws_business_rule : SimProcessor := ProcThrow business_rule.

(** A processor that throws [null]. *)
Definition throws_null : SimProcessor := ProcThrow ThrownNull.

(** A connected client with one idle, connected connection. *)
Definition sim_client : Client SimPool := mkClient ∅ (Some [CONNECTED]).

(** [Client.transaction] on the simulated pool, for a given server. *)
Definition sim_transaction
    (server : string -> option (list JsValue) -> SimConn -> Outcome nat * SimConn)
    (processor : SimProcessor) (this : Client SimPool)
  : Outcome nat * Client SimPool * list Action :=
  transaction sim_state server sim_query sim_pop sim_returnToPool
              sim_removeFromPool processor this.

(** A pool that is just the size it was made with, and a config that sets
    [poolSize] to 0. *)
Definition sized_pool (size : JsValue) : JsValue := size.

Definition zero_config : ClientConfig :=
  <["poolSize" := JsNumber 0]> (<["hostname" := JsString "db.local"]> ∅).

Definition unconnected_client : Client JsValue := mkClient ∅ None.

(** [Client.useConnection] on the simulated pool. *)
Definition sim_useConnection
    (fn : M SimConn Action nat) (this : Client SimPool)
  : Outcome nat * Client SimPool * list Action :=
  useConnection sim_state sim_pop sim_returnToPool sim_removeFromPool fn this.

End ClientScenarios.

(** * More concrete pools, networks and servers, for the examples *)
Module MoreScenarios.
Import Pool PoolScenarios.

(** A network on which no connection opens. *)
Definition connection_refused : Error := mkError MysqlError "ECONNREFUSED".
Definition down_net : nat -> option Error := fun _ => Some connection_refused.

(** A pool of two slots with lazy initialization, before [connect]. *)
Definition lazy_pool : MysqlClientPool := mkPool (mkStack 2 []) false true ∅.

(** A pool of one slot that is not connected although its slot is idle. *)
Definition stale_pool : MysqlClientPool :=
  mkPool (mkStack 1 [clientA]) false false (<[0 := CONNECTED]> ∅).

(** The outcome, the pool and the trace of a call, one by one. *)
Definition outcome_of {A S Act} (x : Outcome A * S * list Act) : Outcome A :=
  fst (fst x).
Definition state_of {A S Act} (x : Outcome A * S * list Act) : S :=
  snd (fst x).
Definition trace_of {A S Act} (x : Outcome A * S * list Act) : list Act :=
  snd x.

Import Client ClientScenarios.

Definition begin_refused : Error := mkError MysqlError "Too many connections".

(** A server that refuses [BEGIN] and keeps the session open. *)
Definition rejects_begin (sql : string) (params : option (list JsValue))
    (c : SimConn) : Outcome nat * SimConn :=
  if String.eqb sql "BEGIN" then (Raises begin_refused, c) else (Returns 0, c).

(** A server whose session breaks on [BEGIN]. *)
Definition drops_on_begin (sql : string) (params : option (list JsValue))
    (c : SimConn) : Outcome nat * SimConn :=
  if String.eqb sql "BEGIN" then (Raises link_lost, CLOSED) else (Returns 0, c).

(** A server whose session breaks on [COMMIT]. *)
Definition drops_on_commit (sql : string) (params : option (list JsValue))
    (c : SimConn) : Outcome nat * SimConn :=
  if String.eqb sql "COMMIT" then (Raises link_lost, CLOSED) else (Returns 0, c).

(** A client before [connect], and a connected client whose pool has
    nothing to hand out. *)
Definition new_client : Client.Client SimPool := Client.mkClient ∅ None.
Definition drained_client : Client.Client SimPool := Client.mkClient ∅ (Some []).

(** [Client.query] and [Client.execute] on the simulated pool. *)
Definition sim_run_query (sql : string) (params : option (list JsValue))
    (this : Client.Client SimPool)
  : Outcome (list nat) * Client.Client SimPool * list Client.Action :=
  query sim_state sim_query sim_pop sim_returnToPool sim_removeFromPool
        sql params this.

Definition sim_run_execute
    (server : string -> option (list JsValue) -> SimConn -> Outcome nat * SimConn)
    (sql : string) (params : option (list JsValue))
    (this : Client.Client SimPool)
  : Outcome nat * Client.Client SimPool * list Client.Action :=
  execute sim_state server sim_pop sim_returnToPool sim_removeFromPool
          sql params this.

End MoreScenarios.

(** * Properties of the pool *)
Module PoolProperties.
Import Pool.

Lemma set_elements_id (p : MysqlClientPool) :
  set_elements (elements (deferredStack p)) p = p.
Proof. destruct p as [[m els] c l h]; reflexivity. Qed.

Lemma is_max_pool_size_error_reached :
  is_max_pool_size_error max_pool_size_reached = true.
Proof. reflexivity. Qed.

Lemma closed_heap_keeps (clients : list MysqlPoolClient) :
  forall (h : gmap nat ConnectionState) (r : nat),
    h !! r = Some CLOSED -> closed_heap clients h !! r = Some CLOSED.
Proof.
  induction clients as [|c cs IH]; intros h r Hr; simpl; [exact Hr|].
  apply IH. destruct (decide (connection c = r)) as [->|Hne].
  - apply lookup_insert_eq.
  - rewrite lookup_insert_ne; auto.
Qed.

Lemma closed_heap_member (clients : list MysqlPoolClient) :
  forall (h : gmap nat ConnectionState) (c : MysqlPoolClient),
    c ∈ clients -> closed_heap clients h !! connection c = Some CLOSED.
Proof.
  induction clients as [|c0 cs IH]; intros h c Hin.
  - inversion Hin.
  - apply elem_of_cons in Hin as [->|Hin]; simpl.
    + apply closed_heap_keeps, lookup_insert_eq.
    + apply IH, Hin.
Qed.

Lemma closed_heap_frame (clients : list MysqlPoolClient) :
  forall (h : gmap nat ConnectionState) (r : nat),
    r ∉ connection <$> clients -> closed_heap clients h !! r = h !! r.
Proof.
  induction clients as [|c0 cs IH]; intros h r Hnot; simpl; [reflexivity|].
  rewrite fmap_cons in Hnot. apply not_elem_of_cons in Hnot as [Hne Hnot].
  rewrite IH by exact Hnot. rewrite lookup_insert_ne; auto.
Qed.

(** The loop of [close] when every close succeeds. *)
Lemma close_loop_run (close_fails : nat -> option Error)
    (clients : list MysqlPoolClient) :
  forall p : MysqlClientPool,
    (forall c, c ∈ clients -> close_fails (connection c) = None) ->
    close_loop close_fails clients p =
    (Returns tt, set_heap (closed_heap clients (heap p)) p,
     flat_map close_actions clients).
Proof.
  induction clients as [|c cs IH]; intros p Hok.
  - destruct p; reflexivity.
  - cbn [close_loop]. unfold bind at 1. unfold dispatchEvent, emit.
    unfold bind at 1. unfold connection_close at 1.
    rewrite (Hok c) by apply list_elem_of_here.
    rewrite IH by (intros c' Hc'; apply Hok, list_elem_of_further, Hc').
    destruct p; reflexivity.
Qed.

(** The loop of [close] up to the first close that fails. *)
Lemma close_loop_stops (close_fails : nat -> option Error)
    (before : list MysqlPoolClient) :
  forall (p : MysqlClientPool) (c : MysqlPoolClient)
         (after : list MysqlPoolClient) (e : Error),
    (forall b, b ∈ before -> close_fails (connection b) = None) ->
    close_fails (connection c) = Some e ->
    close_loop close_fails (before ++ c :: after) p =
    (Raises e, set_heap (closed_heap before (heap p)) p,
     flat_map close_actions (before ++ [c])).
Proof.
  induction before as [|b bs IH]; intros p c after e Hok Hfail.
  - cbn [app close_loop]. unfold bind at 1. unfold dispatchEvent, emit.
    unfold bind at 1. unfold connection_close at 1.
    rewrite Hfail. destruct p; reflexivity.
  - cbn [app close_loop]. unfold bind at 1. unfold dispatchEvent, emit.
    unfold bind at 1. unfold connection_close at 1.
    rewrite (Hok b) by apply list_elem_of_here.
    rewrite (IH _ c after e)
      by (auto; intros b' Hb'; apply Hok, list_elem_of_further, Hb').
    destruct p; reflexivity.
Qed.

(** C5 (as amended). [release(client)] dispatches the release event before
    it tries to push the client back.  When the push returns, [release]
    returns.  When the push raises the "Max pool size reached"
    [SqlxError], the message is logged and [close()] is called on the
    client's connection: if that close succeeds, the connection is closed
    and the error of the push is propagated; if that close fails, the
    error of the close is raised and the connection is left as it was.
    When the push raises anything else, that is rethrown as it is, and the
    connection is not closed. *)
Theorem release_event_then_push
    (stack_push : nat -> list MysqlPoolClient -> MysqlPoolClient ->
                  Outcome unit * list MysqlPoolClient)
    (close_fails : nat -> option Error)
    (client : MysqlPoolClient) (p : MysqlClientPool)
    (r : Outcome unit) (els : list MysqlPoolClient)
    (Hpush : stack_push (maxSize (deferredStack p))
                        (elements (deferredStack p)) client = (r, els)) :
  exists (o : Outcome unit) (p' : MysqlClientPool) (rest : list Action),
    release stack_push close_fails client p =
      (o, p', Dispatch (MysqlPoolConnectionReleaseEvent client)
              :: StackPush client :: rest)
    /\ elements (deferredStack p') = els
    /\ (r = Returns tt -> o = Returns tt /\ rest = [] /\ heap p' = heap p)
    /\ (forall err : Error,
          r = Raises err -> is_max_pool_size_error err = true ->
          rest = [LogDebug (message err); ConnClose (connection client)]
          /\ (close_fails (connection client) = None ->
              o = Raises err
              /\ heap p' = <[connection client := CLOSED]> (heap p))
          /\ (forall e2, close_fails (connection client) = Some e2 ->
              o = Raises e2 /\ heap p' = heap p))
    /\ (forall e : Thrown,
          r = Raises e ->
          (forall err : Error,
             e = ThrownError err -> is_max_pool_size_error err = false) ->
          o = Raises e /\ rest = [] /\ heap p' = heap p).
Proof.
  unfold release, bind, dispatchEvent, emit, try_catch, deferredStack_push.
  rewrite Hpush. destruct r as [[]|e].
  - eexists _, _, []. split; [reflexivity|]. split; [reflexivity|].
    split; [auto|]. split; intros; discriminate.
  - destruct e as [err| | |v].
    + destruct (is_max_pool_size_error err) eqn:Hmax.
      * unfold logger_debug, emit, connection_close, throw. simpl.
        destruct (close_fails (connection client)) as [e2|] eqn:Hclose;
          simpl; eexists _, _, _; (split; [reflexivity|]);
          (split; [reflexivity|]); (split; [intros; discriminate|]).
        -- split.
           ++ intros err' Herr _. inversion Herr; subst err'.
              split; [reflexivity|]. split; [intros; discriminate|].
              intros e2' He2. inversion He2; subst. auto.
           ++ intros e' He' Hnot. inversion He'; subst e'.
              specialize (Hnot err eq_refl). congruence.
        -- split.
           ++ intros err' Herr _. inversion Herr; subst err'.
              split; [reflexivity|]. split; [auto|]. intros; discriminate.
           ++ intros e' He' Hnot. inversion He'; subst e'.
              specialize (Hnot err eq_refl). congruence.
      * eexists _, _, []. split; [reflexivity|]. split; [reflexivity|].
        split; [intros; discriminate|]. split.
        -- intros err' Herr Hm. inversion Herr; subst. congruence.
        -- intros e' He' _. inversion He'; subst. auto.
    + eexists _, _, []. split; [reflexivity|]. split; [reflexivity|].
      split; [intros; discriminate|]. split.
      * intros err' Herr. discriminate.
      * intros e' He' _. inversion He'; subst. auto.
    + eexists _, _, []. split; [reflexivity|]. split; [reflexivity|].
      split; [intros; discriminate|]. split.
      * intros err' Herr. discriminate.
      * intros e' He' _. inversion He'; subst. auto.
    + eexists _, _, []. split; [reflexivity|]. split; [reflexivity|].
      split; [intros; discriminate|]. split.
      * intros err' Herr. discriminate.
      * intros e' He' _. inversion He'; subst. auto.
Qed.

(** C6. On the deferred stack of the spec, [acquire] hands out the client
    released last: after two releases that succeed, the first [acquire]
    returns the second client released and the next one the first, each
    leaving the pool as it was before that client's release; and [acquire]
    pops the client off the idle collection before it dispatches the
    acquire event. *)
Theorem acquire_lifo
    (close_fails : nat -> option Error)
    (older newer : MysqlPoolClient) (p p1 p2 : MysqlClientPool)
    (t1 t2 : list Action)
    (Hrel1 : release spec_push close_fails older p = (Returns tt, p1, t1))
    (Hrel2 : release spec_push close_fails newer p1 = (Returns tt, p2, t2)) :
  acquire spec_pop p2 =
    (Some newer, p1,
     [StackPop; Dispatch (MysqlPoolConnectionAcquireEvent newer)])
  /\ acquire spec_pop p1 =
      (Some older, p,
       [StackPop; Dispatch (MysqlPoolConnectionAcquireEvent older)])
  /\ elements (deferredStack p2) = elements (deferredStack p) ++ [older; newer].
Proof.
  assert (Hone : forall c q q' t,
             release spec_push close_fails c q = (Returns tt, q', t) ->
             q' = set_elements (elements (deferredStack q) ++ [c]) q).
  { intros c q q' t H.
    unfold release, bind, dispatchEvent, emit, try_catch, deferredStack_push,
      spec_push in H.
    destruct (decide _); simpl in H.
    - unfold logger_debug, emit, connection_close, throw in H. simpl in H.
      destruct (close_fails (connection c)); discriminate.
    - congruence. }
  assert (Hpop : forall c q,
             acquire spec_pop (set_elements (elements (deferredStack q) ++ [c]) q) =
             (Some c, q,
              [StackPop; Dispatch (MysqlPoolConnectionAcquireEvent c)])).
  { intros c q. unfold acquire, spec_pop. simpl.
    rewrite rev_unit, rev_involutive.
    destruct q as [[m els] cn l h]; reflexivity. }
  apply Hone in Hrel1. apply Hone in Hrel2. subst p2 p1.
  split; [apply Hpop|]. split; [apply Hpop|].
  simpl. rewrite <- app_assoc. reflexivity.
Qed.

(** C7 (as amended). [close()] sets [connected] to [false] and walks the
    idle collection in order, for each client dispatching a close event and
    then closing its connection.  When every close succeeds, every idle
    client gets its event, every idle connection ends up closed and
    [close()] returns.  When the close of one fails, [close()] raises that
    error at once: the clients before it have had their event and their
    connection closed, the failing one has had its event, and the clients
    after it get no event and no close.  Either way the idle collection
    itself is left as it is, and every connection other than the ones
    closed (so every one that is checked out) keeps its state. *)
Theorem close_walks_idle_until_failure
    (close_fails : nat -> option Error) (p : MysqlClientPool) :
  ((forall c, c ∈ elements (deferredStack p) ->
              close_fails (connection c) = None) ->
   exists p' : MysqlClientPool,
     close close_fails p =
       (Returns tt, p', flat_map close_actions (elements (deferredStack p)))
     /\ connected p' = false
     /\ deferredStack p' = deferredStack p
     /\ (forall c : MysqlPoolClient,
           c ∈ elements (deferredStack p) ->
           heap p' !! connection c = Some CLOSED)
     /\ (forall r : nat,
           r ∉ connection <$> elements (deferredStack p) ->
           heap p' !! r = heap p !! r))
  /\ (forall (before after : list MysqlPoolClient) (c : MysqlPoolClient)
             (e : Error),
        elements (deferredStack p) = before ++ c :: after ->
        (forall b, b ∈ before -> close_fails (connection b) = None) ->
        close_fails (connection c) = Some e ->
        exists p' : MysqlClientPool,
          close close_fails p =
            (Raises e, p', flat_map close_actions (before ++ [c]))
          /\ connected p' = false
          /\ deferredStack p' = deferredStack p
          /\ (forall b : MysqlPoolClient,
                b ∈ before -> heap p' !! connection b = Some CLOSED)
          /\ (forall r : nat,
                r ∉ connection <$> before -> heap p' !! r = heap p !! r)).
Proof.
  split.
  - intros Hok. unfold close, bind, modify, gets.
    cbn [set_connected deferredStack].
    rewrite close_loop_run by exact Hok. eexists. split; [reflexivity|].
    cbn. split; [reflexivity|]. split; [reflexivity|]. split.
    + intros c Hc. apply closed_heap_member, Hc.
    + intros r Hr. apply closed_heap_frame, Hr.
  - intros before after c e Hels Hok Hfail. unfold close, bind, modify, gets.
    cbn [set_connected deferredStack]. rewrite Hels.
    rewrite (close_loop_stops close_fails before _ c after e Hok Hfail).
    eexists. split; [reflexivity|].
    cbn. split; [reflexivity|]. split; [reflexivity|]. split.
    + intros b Hb. apply closed_heap_member, Hb.
    + intros r Hr. apply closed_heap_frame, Hr.
Qed.

(** C10. A [MysqlPoolClient] whose [release] is still the method of the
    class (it was not made by [MysqlClientPool.connect]) raises "Method not
    implemented." from [release()] and from [Symbol.asyncDispose], and the
    pool is left as it was, with nothing done. *)
Theorem release_not_implemented
    (stack_push : nat -> list MysqlPoolClient -> MysqlPoolClient ->
                  Outcome unit * list MysqlPoolClient)
    (close_fails : nat -> option Error)
    (client : MysqlPoolClient) (p : MysqlClientPool)
    (Hown : release_method client = NotImplemented) :
  client_release stack_push close_fails client p =
    (Raises (mkError JsError "Method not implemented."), p, [])
  /\ client_asyncDispose stack_push close_fails client p =
      (Raises (mkError JsError "Method not implemented."), p, []).
Proof.
  unfold client_asyncDispose, client_release. rewrite Hown. split; reflexivity.
Qed.

Section AcceptingStack.

(** A deferred stack whose [push] takes every client, putting it on top
    of the idle collection. *)
Variable stack_push :
  nat -> list MysqlPoolClient -> MysqlPoolClient ->
  Outcome unit * list MysqlPoolClient.
Hypothesis Hpush :
  forall (m : nat) (els : list MysqlPoolClient) (c : MysqlPoolClient),
    stack_push m els c = (Returns tt, els ++ [c]).
Variable net : nat -> option Error.

(** One turn of the loop of [connect] when the connection opens. *)
Lemma connect_slot_run (p : MysqlClientPool) :
  (lazyInitialization p = true \/ forall r, net r = None) ->
  let r := fresh (dom (heap p)) in
  let client := mkClient r BoundToPool in
  connect_slot stack_push net p =
    (Returns tt,
     mkPool (mkStack (maxSize (deferredStack p))
                     (elements (deferredStack p) ++ [client]))
            (connected p) (lazyInitialization p)
            (<[r := if lazyInitialization p then DISCONNECTED else CONNECTED]>
               (heap p)),
     slot_actions (lazyInitialization p) client).
Proof.
  intros Hnet r client.
  destruct p as [[m els] cn lz h]. simpl in *.
  unfold connect_slot, bind, new_MysqlConnection, gets, deferredStack_push,
    connection_connect, dispatchEvent, emit, ret.
  simpl. fold r.
  destruct lz; simpl.
  - rewrite Hpush. reflexivity.
  - destruct Hnet as [Hl|Hnet]; [discriminate|]. rewrite Hnet. simpl.
    rewrite Hpush.
    unfold set_elements, set_heap; simpl. rewrite insert_insert_eq. reflexivity.
Qed.

Lemma connect_loop_run (n : nat) :
  forall p : MysqlClientPool,
    (lazyInitialization p = true \/ forall r, net r = None) ->
    exists (clients : list MysqlPoolClient) (p' : MysqlClientPool),
      connect_loop stack_push net n p =
        (Returns tt, p', flat_map (slot_actions (lazyInitialization p)) clients)
      /\ length clients = n
      /\ deferredStack p' =
           mkStack (maxSize (deferredStack p))
                   (elements (deferredStack p) ++ clients)
      /\ connected p' = connected p
      /\ lazyInitialization p' = lazyInitialization p
      /\ NoDup (connection <$> clients)
      /\ (forall c : MysqlPoolClient,
            c ∈ clients ->
            heap p !! connection c = None
            /\ release_method c = BoundToPool
            /\ heap p' !! connection c =
                 Some (if lazyInitialization p then DISCONNECTED else CONNECTED))
      /\ (forall r : nat, is_Some (heap p !! r) -> heap p' !! r = heap p !! r).
Proof.
  induction n as [|n IH]; intros p Hnet.
  - exists [], p. cbn.
    split; [reflexivity|]. split; [reflexivity|].
    split; [destruct p as [[m els] cn lz h]; simpl; rewrite app_nil_r; reflexivity|].
    split; [reflexivity|]. split; [reflexivity|].
    split; [constructor|].
    split; [intros c Hc; inversion Hc | reflexivity].
  - cbn [connect_loop]. unfold bind at 1.
    rewrite connect_slot_run by auto.
    set (r := fresh (dom (heap p))).
    set (client := mkClient r BoundToPool).
    set (p1 := mkPool _ _ _ _).
    assert (Hfresh : heap p !! r = None).
    { apply not_elem_of_dom. apply is_fresh. }
    destruct (IH p1) as (cs & p' & Hrun & Hlen & Hstack & Hcn & Hlz & Hnd & Hnew & Hold).
    { subst p1; simpl. exact Hnet. }
    rewrite Hrun. exists (client :: cs), p'.
    assert (Hr1 : heap p1 !! r =
                  Some (if lazyInitialization p then DISCONNECTED else CONNECTED)).
    { subst p1; simpl. apply lookup_insert_eq. }
    split; [reflexivity|]. split; [simpl; lia|].
    split; [rewrite Hstack; subst p1; simpl; rewrite <- app_assoc; reflexivity|].
    split; [exact Hcn|]. split; [exact Hlz|]. split.
    { rewrite fmap_cons. constructor; [|exact Hnd].
      intros Hin. apply list_elem_of_fmap in Hin as (c & Hc & Hin).
      destruct (Hnew c Hin) as (Hnone & _). rewrite <- Hc in Hnone.
      change (connection client) with r in Hnone. congruence. }
    split.
    { intros c Hc. apply elem_of_cons in Hc as [->|Hc].
      - split; [exact Hfresh|]. split; [reflexivity|].
        simpl. rewrite Hold by (rewrite Hr1; eauto). exact Hr1.
      - destruct (Hnew c Hc) as (Hnone & Hm & Hst).
        assert (Hne : r <> connection c).
        { intros Heq. rewrite <- Heq in Hnone. congruence. }
        split; [|split; [exact Hm|exact Hst]].
        subst p1; simpl in Hnone. rewrite lookup_insert_ne in Hnone; auto. }
    { intros r' Hsome.
      assert (Hne : r <> r').
      { intros Heq. subst r'. rewrite Hfresh in Hsome. destruct Hsome; discriminate. }
      rewrite Hold.
      - subst p1; simpl. rewrite lookup_insert_ne; auto.
      - subst p1; simpl. rewrite lookup_insert_ne; auto. }
Qed.

(** One call of [connect()], from any pool. *)
Lemma connect_run (p : MysqlClientPool) :
  (lazyInitialization p = true \/ forall r, net r = None) ->
  exists (clients : list MysqlPoolClient) (p' : MysqlClientPool),
    connect stack_push net p =
      (Returns tt, p', flat_map (slot_actions (lazyInitialization p)) clients)
    /\ length clients = maxSize (deferredStack p)
    /\ deferredStack p' =
         mkStack (maxSize (deferredStack p))
                 (elements (deferredStack p) ++ clients)
    /\ connected p' = true
    /\ lazyInitialization p' = lazyInitialization p
    /\ NoDup (connection <$> clients)
    /\ (forall c : MysqlPoolClient,
          c ∈ clients ->
          heap p !! connection c = None
          /\ release_method c = BoundToPool
          /\ heap p' !! connection c =
               Some (if lazyInitialization p then DISCONNECTED else CONNECTED))
    /\ (forall r : nat, is_Some (heap p !! r) -> heap p' !! r = heap p !! r).
Proof.
  intros Hnet.
  destruct (connect_loop_run (maxSize (deferredStack p)) p Hnet)
    as (cs & p' & Hrun & Hlen & Hstack & Hcn & Hlz & Hnd & Hnew & Hold).
  exists cs, (set_connected true p').
  split.
  { unfold connect, bind, gets, modify. rewrite Hrun.
    rewrite !app_nil_r. reflexivity. }
  split; [exact Hlen|]. split; [exact Hstack|]. split; [reflexivity|].
  split; [exact Hlz|]. split; [exact Hnd|]. split; [exact Hnew | exact Hold].
Qed.

(** C8 (as amended). With a deferred stack whose [push] takes every client
    and, unless [lazyInitialization] is set, with every connection
    opening: on a pool whose idle collection is empty, [connect()] makes
    exactly [maxSize] clients, each with a connection of its own that did
    not exist before and with [release] bound to the pool; for each in
    turn the connection is opened and a connect event dispatched exactly
    when [lazyInitialization] is false, and the client is pushed; all of
    them end up in the idle collection and [connected] is [true].
    [connect()] is not idempotent: a second call does all of this again
    for a further [maxSize] clients with connections of their own, pushed
    on top of the first ones, which are left as they were, for
    [2 * maxSize] clients in the idle collection. *)
Theorem connect_provisions_maxSize
    (p : MysqlClientPool)
    (Hempty : elements (deferredStack p) = [])
    (Hnet : lazyInitialization p = true \/ forall r, net r = None) :
  exists (clients : list MysqlPoolClient) (p1 : MysqlClientPool),
    connect stack_push net p =
      (Returns tt, p1, flat_map (slot_actions (lazyInitialization p)) clients)
    /\ length clients = maxSize (deferredStack p)
    /\ deferredStack p1 = mkStack (maxSize (deferredStack p)) clients
    /\ connected p1 = true
    /\ NoDup (connection <$> clients)
    /\ (forall c : MysqlPoolClient,
          c ∈ clients ->
          heap p !! connection c = None
          /\ release_method c = BoundToPool
          /\ heap p1 !! connection c =
               Some (if lazyInitialization p then DISCONNECTED else CONNECTED))
    /\ exists (clients2 : list MysqlPoolClient) (p2 : MysqlClientPool),
         connect stack_push net p1 =
           (Returns tt, p2,
            flat_map (slot_actions (lazyInitialization p)) clients2)
         /\ length clients2 = maxSize (deferredStack p)
         /\ deferredStack p2 =
              mkStack (maxSize (deferredStack p)) (clients ++ clients2)
         /\ length (elements (deferredStack p2)) = 2 * maxSize (deferredStack p)
         /\ connected p2 = true
         /\ NoDup (connection <$> clients ++ clients2)
         /\ (forall c : MysqlPoolClient,
               c ∈ clients2 ->
               heap p1 !! connection c = None
               /\ release_method c = BoundToPool
               /\ heap p2 !! connection c =
                    Some (if lazyInitialization p
                          then DISCONNECTED else CONNECTED))
         /\ (forall c : MysqlPoolClient,
               c ∈ clients -> heap p2 !! connection c = heap p1 !! connection c).
Proof.
  destruct (connect_run p Hnet)
    as (cs & p1 & Hrun & Hlen & Hstack & Hcn & Hlz & Hnd & Hnew & Hold).
  rewrite Hempty in Hstack. simpl in Hstack.
  exists cs, p1.
  split; [exact Hrun|]. split; [exact Hlen|]. split; [exact Hstack|].
  split; [exact Hcn|]. split; [exact Hnd|]. split; [exact Hnew|].
  destruct (connect_run p1)
    as (cs2 & p2 & Hrun2 & Hlen2 & Hstack2 & Hcn2 & Hlz2 & Hnd2 & Hnew2 & Hold2).
  { rewrite Hlz. exact Hnet. }
  rewrite Hstack in Hstack2, Hlen2. simpl in Hstack2, Hlen2.
  rewrite Hlz in Hrun2, Hnew2.
  exists cs2, p2.
  split; [exact Hrun2|]. split; [exact Hlen2|]. split; [exact Hstack2|].
  split; [rewrite Hstack2; simpl; rewrite length_app; lia|].
  split; [exact Hcn2|]. split.
  { rewrite fmap_app. apply NoDup_app. split; [exact Hnd|]. split; [|exact Hnd2].
    intros x Hx1 Hx2.
    apply list_elem_of_fmap in Hx1 as (c1 & -> & Hc1).
    apply list_elem_of_fmap in Hx2 as (c2 & Heq & Hc2).
    destruct (Hnew c1 Hc1) as (_ & _ & Hsome).
    destruct (Hnew2 c2 Hc2) as (Hnone & _).
    rewrite <- Heq in Hnone. congruence. }
  split; [exact Hnew2|].
  intros c Hc. apply Hold2. destruct (Hnew c Hc) as (_ & _ & ->). eauto.
Qed.

End AcceptingStack.

Import PoolScenarios MoreScenarios.

(** C5 as stated fails: the push of the stray client into the full pool
    raises "Max pool size reached", the close of its connection fails, and
    what [release] raises is the failure of the close; the connection is
    not closed. *)
Lemma close_masks_pool_exhausted_counterexample :
  spec_push 2 [clientA; clientB] stray
    = (Raises max_pool_size_reached, [clientA; clientB])
  /\ release spec_push (close_fails_on 7) stray full_pool =
      (Raises close_stuck, full_pool,
       [Dispatch (MysqlPoolConnectionReleaseEvent stray); StackPush stray;
        LogDebug "Max pool size reached"; ConnClose 7])
  /\ heap full_pool !! 7 = Some CONNECTED
  /\ outcome_of (release spec_push (close_fails_on 7) stray full_pool)
     <> Raises max_pool_size_reached.
Proof.
  split; [reflexivity|]. split; [reflexivity|]. split; [reflexivity|].
  discriminate.
Qed.

(** C5 as amended, on a full pool: the overflow with a close that
    succeeds, the overflow with a close that fails, and a push that fails
    for a reason of its own. *)
Lemma release_event_then_push_witness :
  (exists p' : MysqlClientPool,
     release spec_push clean_close stray full_pool =
       (Raises max_pool_size_reached, p',
        [Dispatch (MysqlPoolConnectionReleaseEvent stray); StackPush stray;
         LogDebug "Max pool size reached"; ConnClose 7])
     /\ heap p' !! 7 = Some CLOSED)
  /\ (exists p' : MysqlClientPool,
        release spec_push (close_fails_on 7) stray full_pool =
          (Raises close_stuck, p',
           [Dispatch (MysqlPoolConnectionReleaseEvent stray); StackPush stray;
            LogDebug "Max pool size reached"; ConnClose 7])
        /\ heap p' !! 7 = Some CONNECTED)
  /\ (exists p' : MysqlClientPool,
        release broken_push clean_close stray full_pool =
          (Raises (mkError JsError "stack is frozen"), p',
           [Dispatch (MysqlPoolConnectionReleaseEvent stray); StackPush stray])
        /\ heap p' !! 7 = Some CONNECTED).
Proof.
  split; [|split].
  - destruct (release_event_then_push spec_push clean_close stray full_pool
                (Raises max_pool_size_reached) [clientA; clientB] eq_refl)
      as (o & p' & rest & Hrel & _ & _ & Hmax & _).
    destruct (Hmax max_pool_size_reached eq_refl eq_refl)
      as (Hrest & Hok & _).
    destruct (Hok eq_refl) as (Ho & Hheap).
    exists p'. rewrite Ho, Hrest in Hrel. split; [exact Hrel|].
    rewrite Hheap. reflexivity.
  - destruct (release_event_then_push spec_push (close_fails_on 7) stray
                full_pool (Raises max_pool_size_reached) [clientA; clientB]
                eq_refl)
      as (o & p' & rest & Hrel & _ & _ & Hmax & _).
    destruct (Hmax max_pool_size_reached eq_refl eq_refl)
      as (Hrest & _ & Hfail).
    destruct (Hfail close_stuck eq_refl) as (Ho & Hheap).
    exists p'. rewrite Ho, Hrest in Hrel. split; [exact Hrel|].
    rewrite Hheap. reflexivity.
  - destruct (release_event_then_push broken_push clean_close stray full_pool
                (Raises (mkError JsError "stack is frozen"))
                [clientA; clientB] eq_refl)
      as (o & p' & rest & Hrel & _ & _ & _ & Hother).
    destruct (Hother (mkError JsError "stack is frozen") eq_refl)
      as (Ho & Hrest & Hheap).
    { intros err Herr. inversion Herr; subst err. reflexivity. }
    exists p'. rewrite Ho, Hrest in Hrel. split; [exact Hrel|].
    rewrite Hheap. reflexivity.
Defined.

(** C6, on a pool of two slots: B is released after A, and is acquired
    before it. *)
Lemma acquire_lifo_witness :
  acquire spec_pop (mkPool (mkStack 2 [clientA; clientB]) false false ∅) =
    (Some clientB, mkPool (mkStack 2 [clientA]) false false ∅,
     [StackPop; Dispatch (MysqlPoolConnectionAcquireEvent clientB)])
  /\ acquire spec_pop (mkPool (mkStack 2 [clientA]) false false ∅) =
      (Some clientA, fresh_pool,
       [StackPop; Dispatch (MysqlPoolConnectionAcquireEvent clientA)]).
Proof.
  destruct (acquire_lifo clean_close clientA clientB fresh_pool
              (mkPool (mkStack 2 [clientA]) false false ∅)
              (mkPool (mkStack 2 [clientA; clientB]) false false ∅)
              [Dispatch (MysqlPoolConnectionReleaseEvent clientA); StackPush clientA]
              [Dispatch (MysqlPoolConnectionReleaseEvent clientB); StackPush clientB]
              eq_refl eq_refl) as (H1 & H2 & _).
  split; [exact H1 | exact H2].
Defined.

(** C7 as stated fails: on the busy pool, the close of the first idle
    connection fails; [close()] raises, and the second idle client gets no
    close event and keeps its connection open. *)
Lemma close_aborts_counterexample :
  close (close_fails_on 0) busy_pool =
    (Raises close_stuck, set_connected false busy_pool,
     [Dispatch (MysqlConnectionCloseEvent clientA); ConnClose 0])
  /\ clientB ∈ elements (deferredStack busy_pool)
  /\ heap (state_of (close (close_fails_on 0) busy_pool)) !! 1
     = Some CONNECTED
  /\ outcome_of (close (close_fails_on 0) busy_pool) <> Returns tt.
Proof.
  split; [reflexivity|].
  split; [apply list_elem_of_further, list_elem_of_here|].
  split; [reflexivity | discriminate].
Qed.

(** C7 as amended, on a pool with two idle clients and connection 2
    checked out: every close succeeding, and the second one failing. *)
Lemma close_walks_idle_until_failure_witness :
  (exists p' : MysqlClientPool,
     close clean_close busy_pool =
       (Returns tt, p',
        [Dispatch (MysqlConnectionCloseEvent clientA); ConnClose 0;
         Dispatch (MysqlConnectionCloseEvent clientB); ConnClose 1])
     /\ connected p' = false
     /\ heap p' !! 0 = Some CLOSED
     /\ heap p' !! 1 = Some CLOSED
     /\ heap p' !! 2 = Some CONNECTED)
  /\ (exists p' : MysqlClientPool,
        close (close_fails_on 1) busy_pool =
          (Raises close_stuck, p',
           [Dispatch (MysqlConnectionCloseEvent clientA); ConnClose 0;
            Dispatch (MysqlConnectionCloseEvent clientB); ConnClose 1])
        /\ connected p' = false
        /\ heap p' !! 0 = Some CLOSED
        /\ heap p' !! 1 = Some CONNECTED
        /\ heap p' !! 2 = Some CONNECTED).
Proof.
  split.
  - destruct (proj1 (close_walks_idle_until_failure clean_close busy_pool))
      as (p' & Hrun & Hcn & _ & Hidle & Hout).
    { intros c _. reflexivity. }
    exists p'. split; [exact Hrun|]. split; [exact Hcn|].
    split; [apply (Hidle clientA); apply list_elem_of_here|].
    split; [apply (Hidle clientB); apply list_elem_of_further, list_elem_of_here|].
    rewrite (Hout 2); [reflexivity|].
    apply (bool_decide_unpack _). reflexivity.
  - destruct (proj2 (close_walks_idle_until_failure (close_fails_on 1)
                       busy_pool) [clientA] [] clientB close_stuck eq_refl)
      as (p' & Hrun & Hcn & _ & Hidle & Hout).
    { intros b Hb. apply list_elem_of_singleton in Hb. subst b. reflexivity. }
    { reflexivity. }
    exists p'. split; [exact Hrun|]. split; [exact Hcn|].
    split; [apply (Hidle clientA); apply list_elem_of_here|].
    split; (rewrite Hout; [reflexivity|]);
      apply (bool_decide_unpack _); reflexivity.
Defined.

(** C8 as stated fails: on a fresh pool of two slots with eager
    initialization and a network that is down, [connect()] raises at the
    first connection; no client is provisioned or pushed and [connected]
    stays [false].  And on a network that is up, with a deferred stack
    whose [push] throws, [connect()] raises at the first push, the idle
    collection still empty. *)
Lemma eager_open_failure_counterexample :
  connect unbounded_push down_net fresh_pool =
    (Raises connection_refused,
     mkPool (mkStack 2 []) false false (<[0 := DISCONNECTED]> ∅),
     [ConnConnect 0])
  /\ length (elements (deferredStack
               (state_of (connect unbounded_push down_net fresh_pool))))
     <> maxSize (deferredStack fresh_pool)
  /\ connected (state_of (connect unbounded_push down_net fresh_pool)) = false
  /\ connect broken_push reliable_net fresh_pool =
      (Raises (mkError JsError "stack is frozen"),
       mkPool (mkStack 2 []) false false (<[0 := CONNECTED]> ∅),
       [ConnConnect 0;
        Dispatch (MysqlConnectionConnectEvent (mkClient 0 BoundToPool));
        StackPush (mkClient 0 BoundToPool)]).
Proof.
  split; [reflexivity|]. split; [simpl; lia|]. split; reflexivity.
Qed.

(** C8 as amended, on a fresh pool of two slots with eager
    initialization: two slots after the first call, four after the
    second. *)
Lemma connect_provisions_maxSize_witness :
  exists (clients clients2 : list MysqlPoolClient) (p1 p2 : MysqlClientPool),
    connect unbounded_push reliable_net fresh_pool =
      (Returns tt, p1, flat_map (slot_actions false) clients)
    /\ length clients = 2
    /\ elements (deferredStack p1) = clients
    /\ connected p1 = true
    /\ connect unbounded_push reliable_net p1 =
         (Returns tt, p2, flat_map (slot_actions false) clients2)
    /\ elements (deferredStack p2) = clients ++ clients2
    /\ length (elements (deferredStack p2)) = 4.
Proof.
  destruct (connect_provisions_maxSize unbounded_push (fun _ _ _ => eq_refl)
              reliable_net fresh_pool eq_refl (or_intror (fun _ => eq_refl)))
    as (cs & p1 & Hrun & Hlen & Hstack & Hcn & _ & _ & Hagain).
  destruct Hagain as (cs2 & p2 & Hrun2 & _ & Hstack2 & Hlen2 & _).
  exists cs, cs2, p1, p2. split; [exact Hrun|]. split; [exact Hlen|].
  split; [rewrite Hstack; reflexivity|]. split; [exact Hcn|].
  split; [exact Hrun2|]. split; [rewrite Hstack2; reflexivity | exact Hlen2].
Defined.

(** C10, for a client made outside the pool. *)
Lemma release_not_implemented_witness :
  client_release spec_push clean_close stray full_pool =
    (Raises (mkError JsError "Method not implemented."), full_pool, [])
  /\ client_asyncDispose spec_push clean_close stray full_pool =
      (Raises (mkError JsError "Method not implemented."), full_pool, []).
Proof.
  apply (release_not_implemented spec_push clean_close stray full_pool).
  reflexivity.
Defined.

End PoolProperties.

(** * Properties of the client facade *)
Module ClientProperties.
Import Client.

Section WithCollaborators.

Context {Conn Pool ExecuteResult QueryResult : Type}.
Variable state : Conn -> ConnectionState.
Variable conn_execute :
  string -> option (list JsValue) -> Conn -> Outcome ExecuteResult * Conn.
Variable conn_query :
  string -> option (list JsValue) -> Conn -> Outcome QueryResult * Conn.
Variable pool_pop : Pool -> Outcome Conn * Pool.
Variable returnToPool : Conn -> Pool -> Pool.
Variable removeFromPool : Conn -> Pool -> Pool.

Local Abbreviation run := (run_processor conn_execute conn_query).
Local Abbreviation body := (transaction_body state conn_execute conn_query).
Local Abbreviation borrow :=
  (useConnection state pool_pop returnToPool removeFromPool).
Local Abbreviation cleaned := (cleanup_pool state returnToPool removeFromPool).

(** A borrow that gets its connection: the work runs, then the [finally]
    block, whatever the outcome of the work. *)
Lemma useConnection_run {T} (fn : M Conn Action T) (this : Client Pool)
    (pool pool1 : Pool) (c0 c1 : Conn) (r : Outcome T) (t : list Action) :
  _pool this = Some pool ->
  pool_pop pool = (Returns c0, pool1) ->
  fn c0 = (r, c1, t) ->
  borrow fn this =
    (r, mkClient (config this) (Some (cleaned c1 pool1)),
     PoolPop :: t ++ [cleanup_action (state c1)]).
Proof.
  intros Hpool Hpop Hfn. unfold useConnection, cleanup_pool, cleanup_action.
  rewrite Hpool, Hpop, Hfn. destruct (decide (state c1 = CLOSED)); reflexivity.
Qed.

(** A processor acts on the connection through statements only. *)
Lemma run_processor_statements {T} (processor : TransactionProcessor _ _ T) :
  forall (c c' : Conn) (r : Outcome T) (t : list Action),
    run processor c = (r, c', t) ->
    Forall (fun a => is_statement a = true) t.
Proof.
  induction processor as [v|e|sql params k IH|sql params k IH];
    intros c c' r t Hrun; simpl in Hrun.
  - inversion Hrun; constructor.
  - inversion Hrun; constructor.
  - destruct (conn_execute sql params c) as [r0 c1].
    destruct (run (k r0) c1) as [[r' c2] t'] eqn:Hk.
    inversion Hrun; subst. constructor; [reflexivity|].
    eapply IH; exact Hk.
  - destruct (conn_query sql params c) as [r0 c1].
    destruct (run (k r0) c1) as [[r' c2] t'] eqn:Hk.
    inversion Hrun; subst. constructor; [reflexivity|].
    eapply IH; exact Hk.
Qed.

(** The transaction body when every step returns. *)
Lemma transaction_body_commits {T} (processor : TransactionProcessor _ _ T)
    (c0 c1 c2 c3 : Conn) (r1 r3 : ExecuteResult) (v : T) (stmts : list Action) :
  conn_execute "BEGIN" None c0 = (Returns r1, c1) ->
  run processor c1 = (Returns v, c2, stmts) ->
  conn_execute "COMMIT" None c2 = (Returns r3, c3) ->
  body processor c0 =
    (Returns v, c3, Execute "BEGIN" None :: stmts ++ [Execute "COMMIT" None]).
Proof.
  intros Hb Hp Hc.
  unfold transaction_body, try_catch, bind, connection_execute, ret.
  rewrite Hb, Hp, Hc. simpl. rewrite ?app_nil_r. reflexivity.
Qed.

(** The transaction body when the processor raises: what the [catch] block
    does, by the state of the connection, by whether the message of what
    was thrown can be read and by the outcome of [ROLLBACK]. *)
Lemma transaction_body_catches {T} (processor : TransactionProcessor _ _ T)
    (c0 c1 c2 : Conn) (r1 : ExecuteResult) (e : Thrown) (stmts : list Action) :
  conn_execute "BEGIN" None c0 = (Returns r1, c1) ->
  run processor c1 = (Raises e, c2, stmts) ->
  body processor c0 =
    if decide (state c2 = CONNECTED) then
      match message_of e with
      | Raises type_error =>
          (Raises type_error, c2, Execute "BEGIN" None :: stmts)
      | Returns msg =>
          match conn_execute "ROLLBACK" None c2 with
          | (Returns _, c3) =>
              (Raises e, c3,
               Execute "BEGIN" None :: stmts ++
               [LoggerInfo (String.append "ROLLBACK: " msg);
                Execute "ROLLBACK" None])
          | (Raises e', c3) =>
              (Raises e', c3,
               Execute "BEGIN" None :: stmts ++
               [LoggerInfo (String.append "ROLLBACK: " msg);
                Execute "ROLLBACK" None])
          end
      end
    else (Raises e, c2, Execute "BEGIN" None :: stmts).
Proof.
  intros Hb Hp.
  unfold transaction_body, try_catch, bind, connection_execute, ret, gets,
    logger_info, emit, throw, evaluate.
  rewrite Hb, Hp. simpl.
  destruct (decide (state c2 = CONNECTED)).
  - destruct (message_of e) as [msg|type_error]; simpl.
    + destruct (conn_execute "ROLLBACK" None c2) as [[r|e'] c3]; simpl;
        rewrite ?app_nil_r; reflexivity.
    + rewrite ?app_nil_r. reflexivity.
  - simpl. rewrite ?app_nil_r. reflexivity.
Qed.

Local Abbreviation transact :=
  (transaction state conn_execute conn_query pool_pop returnToPool removeFromPool).

(** C1 (as amended). On a connected client whose pool hands out a
    connection, when [BEGIN] succeeds, the processor returns [v] without
    raising and [COMMIT] succeeds, [transaction] returns [v]; the borrowed
    connection runs [BEGIN], then the processor's statements (and nothing
    but statements), then [COMMIT], in that order, and is then given back
    by the [finally] block of [useConnection]. *)
Theorem transaction_returns_processor_value {T}
    (processor : TransactionProcessor ExecuteResult QueryResult T)
    (this : Client Pool) (pool pool1 : Pool) (c0 c1 c2 c3 : Conn)
    (r1 r3 : ExecuteResult) (v : T) (stmts : list Action)
    (Hpool : _pool this = Some pool)
    (Hpop : pool_pop pool = (Returns c0, pool1))
    (Hbegin : conn_execute "BEGIN" None c0 = (Returns r1, c1))
    (Hproc : run processor c1 = (Returns v, c2, stmts))
    (Hcommit : conn_execute "COMMIT" None c2 = (Returns r3, c3)) :
  transact processor this =
    (Returns v, mkClient (config this) (Some (cleaned c3 pool1)),
     PoolPop :: Execute "BEGIN" None :: stmts
       ++ [Execute "COMMIT" None; cleanup_action (state c3)])
  /\ Forall (fun a => is_statement a = true) stmts.
Proof.
  split; [|eapply run_processor_statements; exact Hproc].
  unfold transaction.
  rewrite (useConnection_run _ _ pool pool1 c0 c3 (Returns v)
             (Execute "BEGIN" None :: stmts ++ [Execute "COMMIT" None]));
    auto.
  - simpl. rewrite <- app_assoc. reflexivity.
  - eapply transaction_body_commits; eauto.
Qed.

(** C2 (as amended). When the processor raises [e]: if the connection is
    still [CONNECTED] when the error is caught and the message of [e] can
    be read (it is not [null] or [undefined]), the rollback is logged and
    [ROLLBACK] is run, and, provided [ROLLBACK] succeeds, [e] is propagated
    unchanged; if the connection is no longer [CONNECTED], no [ROLLBACK]
    is run and [e], whatever it is, is propagated unchanged. *)
Theorem transaction_rolls_back_when_connected {T}
    (processor : TransactionProcessor ExecuteResult QueryResult T)
    (this : Client Pool) (pool pool1 : Pool) (c0 c1 c2 : Conn)
    (r1 : ExecuteResult) (e : Thrown) (stmts : list Action)
    (Hpool : _pool this = Some pool)
    (Hpop : pool_pop pool = (Returns c0, pool1))
    (Hbegin : conn_execute "BEGIN" None c0 = (Returns r1, c1))
    (Hproc : run processor c1 = (Raises e, c2, stmts)) :
  (state c2 = CONNECTED ->
   forall (msg : string) (r : ExecuteResult) (c3 : Conn),
     message_of e = Returns msg ->
     conn_execute "ROLLBACK" None c2 = (Returns r, c3) ->
     transact processor this =
       (Raises e, mkClient (config this) (Some (cleaned c3 pool1)),
        PoolPop :: Execute "BEGIN" None :: stmts
          ++ [LoggerInfo (String.append "ROLLBACK: " msg);
              Execute "ROLLBACK" None; cleanup_action (state c3)]))
  /\ (state c2 <> CONNECTED ->
      transact processor this =
        (Raises e, mkClient (config this) (Some (cleaned c2 pool1)),
         PoolPop :: Execute "BEGIN" None :: stmts
           ++ [cleanup_action (state c2)])).
Proof.
  pose proof (transaction_body_catches processor c0 c1 c2 r1 e stmts
                Hbegin Hproc) as Hbody.
  split.
  - intros Hst msg r c3 Hmsg Hrb. rewrite Hmsg, Hrb in Hbody.
    destruct (decide (state c2 = CONNECTED)); [|contradiction].
    unfold transaction.
    rewrite (useConnection_run _ _ _ _ _ _ _ _ Hpool Hpop Hbody).
    simpl. rewrite <- app_assoc. reflexivity.
  - intros Hst.
    destruct (decide (state c2 = CONNECTED)); [contradiction|].
    unfold transaction.
    rewrite (useConnection_run _ _ _ _ _ _ _ _ Hpool Hpop Hbody).
    reflexivity.
Qed.

(** C3 (as amended). When the processor raises [e], the connection is
    still [CONNECTED], the message of [e] can be read (it is not [null] or
    [undefined]) and [ROLLBACK] itself fails with [e'], the failure of the
    rollback is what [transaction] raises: it is neither caught nor
    logged, and [e] is not rethrown. *)
Theorem rollback_failure_is_propagated {T}
    (processor : TransactionProcessor ExecuteResult QueryResult T)
    (this : Client Pool) (pool pool1 : Pool) (c0 c1 c2 c3 : Conn)
    (r1 : ExecuteResult) (e e' : Thrown) (msg : string) (stmts : list Action)
    (Hpool : _pool this = Some pool)
    (Hpop : pool_pop pool = (Returns c0, pool1))
    (Hbegin : conn_execute "BEGIN" None c0 = (Returns r1, c1))
    (Hproc : run processor c1 = (Raises e, c2, stmts))
    (Hstate : state c2 = CONNECTED)
    (Hmsg : message_of e = Returns msg)
    (Hrollback : conn_execute "ROLLBACK" None c2 = (Raises e', c3)) :
  transact processor this =
    (Raises e', mkClient (config this) (Some (cleaned c3 pool1)),
     PoolPop :: Execute "BEGIN" None :: stmts
       ++ [LoggerInfo (String.append "ROLLBACK: " msg);
           Execute "ROLLBACK" None; cleanup_action (state c3)]).
Proof.
  pose proof (transaction_body_catches processor c0 c1 c2 r1 e stmts
                Hbegin Hproc) as Hbody.
  rewrite Hmsg, Hrollback in Hbody.
  destruct (decide (state c2 = CONNECTED)); [|contradiction].
  unfold transaction.
  rewrite (useConnection_run _ _ _ _ _ _ _ _ Hpool Hpop Hbody).
  simpl. rewrite <- app_assoc. reflexivity.
Qed.

(** C4. [query], [execute] and [transaction] all borrow through
    [useConnection]; and every borrow that got its connection ends with
    the same [finally] block, whether the work returned or raised: the
    connection is removed from the pool when its state is [CLOSED] and
    returned to the pool otherwise, and the outcome of the work is the
    outcome of the borrow. *)
Theorem borrow_always_cleans_up {T} (fn : M Conn Action T)
    (this : Client Pool) (pool pool1 : Pool) (c0 c1 : Conn)
    (r : Outcome T) (t : list Action)
    (Hpool : _pool this = Some pool)
    (Hpop : pool_pop pool = (Returns c0, pool1))
    (Hwork : fn c0 = (r, c1, t)) :
  (state c1 = CLOSED ->
   borrow fn this =
     (r, mkClient (config this) (Some (removeFromPool c1 pool1)),
      PoolPop :: t ++ [RemoveFromPool]))
  /\ (state c1 <> CLOSED ->
      borrow fn this =
        (r, mkClient (config this) (Some (returnToPool c1 pool1)),
         PoolPop :: t ++ [ReturnToPool]))
  /\ (forall sql params,
        query state conn_query pool_pop returnToPool removeFromPool sql params =
        borrow (connection_query conn_query sql params))
  /\ (forall sql params,
        execute state conn_execute pool_pop returnToPool removeFromPool sql params =
        borrow (connection_execute conn_execute sql params))
  /\ (forall U (processor : TransactionProcessor ExecuteResult QueryResult U),
        transact processor = borrow (body processor)).
Proof.
  pose proof (useConnection_run fn this pool pool1 c0 c1 r t Hpool Hpop Hwork)
    as Hrun.
  unfold cleanup_pool, cleanup_action in Hrun.
  split; [|split; [|split; [|split]]].
  - intros Hst. destruct (decide (state c1 = CLOSED)); [exact Hrun|contradiction].
  - intros Hst. destruct (decide (state c1 = CLOSED)); [contradiction|exact Hrun].
  - reflexivity.
  - reflexivity.
  - reflexivity.
Qed.

End WithCollaborators.

(** C9. A config that sets [poolSize] to 0: the config the client keeps
    records [poolSize] 0, not the default 1 of the object literal, and the
    [ConnectionPool] is made with size 10, since 0 is falsy in
    [poolSize || 10]. *)
Theorem connect_poolSize_zero {Pool : Type} (new_ConnectionPool : JsValue -> Pool)
    (config0 : ClientConfig) (this : Client Pool)
    (Hzero : config0 !! "poolSize" = Some (JsNumber 0)) :
  config (connect new_ConnectionPool config0 this) !! "poolSize"
    = Some (JsNumber 0)
  /\ config_defaults !! "poolSize" = Some (JsNumber 1)
  /\ _pool (connect new_ConnectionPool config0 this)
     = Some (new_ConnectionPool (JsNumber 10)).
Proof.
  assert (Hcfg : spread_over config_defaults config0 !! "poolSize"
                 = Some (JsNumber 0)).
  { unfold spread_over. apply lookup_union_Some_l. exact Hzero. }
  split; [exact Hcfg|]. split; [reflexivity|].
  unfold connect. simpl. unfold prop. rewrite Hcfg. reflexivity.
Qed.

Import ClientScenarios MoreScenarios.

(** C1 as stated fails: the processor returns 7, the server refuses
    [COMMIT], and [transaction] raises the server's error. *)
Lemma commit_failure_counterexample :
  run_processor rejects_commit sim_query returns_seven CONNECTED
    = (Returns 7, CONNECTED, [])
  /\ sim_transaction rejects_commit returns_seven sim_client =
      (Raises commit_failed, mkClient ∅ (Some [CONNECTED]),
       [PoolPop; Execute "BEGIN" None; Execute "COMMIT" None;
        LoggerInfo "ROLLBACK: Deadlock found at COMMIT";
        Execute "ROLLBACK" None; ReturnToPool])
  /\ fst (fst (sim_transaction rejects_commit returns_seven sim_client))
     <> Returns 7.
Proof. split; [reflexivity|]. split; [reflexivity|]. discriminate. Qed.

(** C1 as amended, on a healthy server. *)
Lemma transaction_returns_processor_value_witness :
  sim_transaction healthy (run_one "UPDATE t SET x = 1") sim_client =
    (Returns 0, mkClient ∅ (Some [CONNECTED]),
     [PoolPop; Execute "BEGIN" None; Execute "UPDATE t SET x = 1" None;
      Execute "COMMIT" None; ReturnToPool]).
Proof.
  apply (proj1 (transaction_returns_processor_value sim_state healthy
           sim_query sim_pop sim_returnToPool sim_removeFromPool
           (run_one "UPDATE t SET x = 1") sim_client
           [CONNECTED] [] CONNECTED CONNECTED CONNECTED CONNECTED 0 0 0
           [Execute "UPDATE t SET x = 1" None]
           eq_refl eq_refl eq_refl eq_refl eq_refl)).
Defined.

(** C2 as stated fails, twice over.  The processor raises "Duplicate
    entry", the connection is still connected, [ROLLBACK] fails, and what
    [transaction] raises is the failure of the rollback.  And the
    processor throws [null] on a connection that stays connected: reading
    the message raises a [TypeError], no [ROLLBACK] is run, and the
    [TypeError] is what [transaction] raises. *)
Lemma rollback_masks_error_counterexample :
  run_processor rejects_insert_and_rollback sim_query
    (run_one "INSERT INTO t VALUES (1)") CONNECTED
    = (Raises duplicate_key, CONNECTED, [Execute "INSERT INTO t VALUES (1)" None])
  /\ sim_transaction rejects_insert_and_rollback
       (run_one "INSERT INTO t VALUES (1)") sim_client =
      (Raises rollback_failed, mkClient ∅ (Some [CONNECTED]),
       [PoolPop; Execute "BEGIN" None; Execute "INSERT INTO t VALUES (1)" None;
        LoggerInfo "ROLLBACK: Duplicate entry";
        Execute "ROLLBACK" None; ReturnToPool])
  /\ rollback_failed <> duplicate_key
  /\ sim_transaction healthy throws_null sim_client =
      (Raises (mkError JsTypeError
                 "Cannot read properties of null (reading 'message')"),
       mkClient ∅ (Some [CONNECTED]),
       [PoolPop; Execute "BEGIN" None; ReturnToPool])
  /\ outcome_of (sim_transaction healthy throws_null sim_client)
     <> Raises ThrownNull.
Proof.
  split; [reflexivity|]. split; [reflexivity|]. split; [discriminate|].
  split; [reflexivity | discriminate].
Qed.

(** C2 as amended: a rollback that succeeds, and a connection that the
    failure closed. *)
Lemma transaction_rolls_back_when_connected_witness :
  sim_transaction healthy throws_business_rule sim_client =
    (Raises business_rule, mkClient ∅ (Some [CONNECTED]),
     [PoolPop; Execute "BEGIN" None;
      LoggerInfo "ROLLBACK: insufficient funds";
      Execute "ROLLBACK" None; ReturnToPool])
  /\ sim_transaction drops_on_update (run_one "UPDATE t SET x = 1") sim_client =
      (Raises link_lost, mkClient ∅ (Some []),
       [PoolPop; Execute "BEGIN" None; Execute "UPDATE t SET x = 1" None;
        RemoveFromPool]).
Proof.
  split.
  - apply (proj1 (transaction_rolls_back_when_connected sim_state healthy
             sim_query sim_pop sim_returnToPool sim_removeFromPool
             throws_business_rule sim_client [CONNECTED] []
             CONNECTED CONNECTED CONNECTED 0 business_rule []
             eq_refl eq_refl eq_refl eq_refl)
             eq_refl "insufficient funds" 0 CONNECTED eq_refl eq_refl).
  - apply (proj2 (transaction_rolls_back_when_connected sim_state
             drops_on_update sim_query sim_pop sim_returnToPool
             sim_removeFromPool (run_one "UPDATE t SET x = 1") sim_client
             [CONNECTED] [] CONNECTED CONNECTED CLOSED 0 link_lost
             [Execute "UPDATE t SET x = 1" None]
             eq_refl eq_refl eq_refl eq_refl)).
    discriminate.
Defined.

(** C3 as stated fails: the processor throws "insufficient funds",
    [ROLLBACK] fails with "Lock wait timeout", and the caller gets the
    latter; nothing but the rollback notice is logged. *)
Lemma rollback_failure_counterexample :
  sim_transaction rejects_rollback throws_business_rule sim_client =
    (Raises rollback_failed, mkClient ∅ (Some [CONNECTED]),
     [PoolPop; Execute "BEGIN" None;
      LoggerInfo "ROLLBACK: insufficient funds";
      Execute "ROLLBACK" None; ReturnToPool])
  /\ fst (fst (sim_transaction rejects_rollback throws_business_rule sim_client))
     <> Raises business_rule.
Proof. split; [reflexivity|]. discriminate. Qed.

(** C3 as amended, on the same input, from the theorem. *)
Lemma rollback_failure_is_propagated_witness :
  sim_transaction rejects_rollback throws_business_rule sim_client =
    (Raises rollback_failed, mkClient ∅ (Some [CONNECTED]),
     [PoolPop; Execute "BEGIN" None;
      LoggerInfo "ROLLBACK: insufficient funds";
      Execute "ROLLBACK" None; ReturnToPool]).
Proof.
  apply (rollback_failure_is_propagated sim_state rejects_rollback sim_query
           sim_pop sim_returnToPool sim_removeFromPool
           throws_business_rule sim_client [CONNECTED] []
           CONNECTED CONNECTED CONNECTED CONNECTED 0
           business_rule rollback_failed "insufficient funds" []);
    reflexivity.
Defined.

(** C4: work that raises on a connection that stays open, and work that
    leaves the connection closed. *)
Lemma borrow_always_cleans_up_witness :
  sim_useConnection (throw business_rule) sim_client =
    (Raises business_rule, mkClient ∅ (Some [CONNECTED]),
     [PoolPop; ReturnToPool])
  /\ sim_useConnection (connection_execute drops_on_update "UPDATE t SET x = 1" None)
       sim_client =
      (Raises link_lost, mkClient ∅ (Some []),
       [PoolPop; Execute "UPDATE t SET x = 1" None; RemoveFromPool]).
Proof.
  split.
  - apply (proj1 (proj2 (borrow_always_cleans_up sim_state healthy sim_query
             sim_pop sim_returnToPool sim_removeFromPool
             (throw business_rule) sim_client [CONNECTED] []
             CONNECTED CONNECTED (Raises business_rule) []
             eq_refl eq_refl eq_refl))).
    discriminate.
  - apply (proj1 (borrow_always_cleans_up sim_state drops_on_update sim_query
             sim_pop sim_returnToPool sim_removeFromPool
             (connection_execute drops_on_update "UPDATE t SET x = 1" None)
             sim_client [CONNECTED] [] CONNECTED CLOSED (Raises link_lost)
             [Execute "UPDATE t SET x = 1" None]
             eq_refl eq_refl eq_refl)).
    reflexivity.
Defined.

(** C9, for a config with [poolSize: 0]. *)
Lemma connect_poolSize_zero_witness :
  config (connect sized_pool zero_config unconnected_client) !! "poolSize"
    = Some (JsNumber 0)
  /\ _pool (connect sized_pool zero_config unconnected_client)
     = Some (JsNumber 10).
Proof.
  destruct (connect_poolSize_zero sized_pool zero_config unconnected_client
              eq_refl) as (Hcfg & _ & Hpool).
  split; [exact Hcfg | exact Hpool].
Defined.

End ClientProperties.


(** * Further properties of the pool, for any deferred stack *)
Module PoolBehaviour.
Import Pool.

Section AnyStack.

Variable stack_push :
  nat -> list MysqlPoolClient -> MysqlPoolClient ->
  Outcome unit * list MysqlPoolClient.
Variable stack_pop :
  nat -> list MysqlPoolClient ->
  option MysqlPoolClient * list MysqlPoolClient.
Variable net : nat -> option Error.
Variable close_fails : nat -> option Error.

(** One turn of the loop of [connect], case by case. *)
Lemma connect_slot_cases (p : MysqlClientPool) :
  let r := fresh (dom (heap p)) in
  let client := mkClient r BoundToPool in
  let p0 := set_heap (<[r := DISCONNECTED]> (heap p)) p in
  connect_slot stack_push net p =
    if lazyInitialization p then
      match stack_push (maxSize (deferredStack p)) (elements (deferredStack p))
                       client with
      | (o, els) => (o, set_elements els p0, [StackPush client])
      end
    else
      match net r with
      | Some e => (Raises e, p0, [ConnConnect r])
      | None =>
          match stack_push (maxSize (deferredStack p))
                           (elements (deferredStack p)) client with
          | (o, els) =>
              (o, set_elements els (set_heap (<[r := CONNECTED]> (heap p)) p),
               [ConnConnect r; Dispatch (MysqlConnectionConnectEvent client);
                StackPush client])
          end
      end.
Proof.
  intros r client p0. subst p0.
  destruct p as [[m els] cn lz h]. simpl in *.
  unfold connect_slot, bind, new_MysqlConnection, gets, deferredStack_push,
    connection_connect, dispatchEvent, emit, ret.
  simpl. fold r. fold client.
  destruct lz; simpl.
  - destruct (stack_push m els client) as [o els']. reflexivity.
  - destruct (net r) as [e|]; simpl; [reflexivity|].
    destruct (stack_push m els client) as [o els']; simpl.
    unfold set_elements, set_heap; simpl. rewrite insert_insert_eq.
    reflexivity.
Qed.

(** What one turn of the loop keeps and what it pushes. *)
Lemma connect_slot_keeps (p p' : MysqlClientPool) (o : Outcome unit)
    (t : list Action) :
  connect_slot stack_push net p = (o, p', t) ->
  let r := fresh (dom (heap p)) in
  connected p' = connected p
  /\ lazyInitialization p' = lazyInitialization p
  /\ maxSize (deferredStack p') = maxSize (deferredStack p)
  /\ (forall r', r' <> r -> heap p' !! r' = heap p !! r')
  /\ (heap p' !! r = Some DISCONNECTED \/
      (lazyInitialization p = false /\ heap p' !! r = Some CONNECTED))
  /\ (pushed_clients t = [] \/ pushed_clients t = [mkClient r BoundToPool])
  /\ (lazyInitialization p = true ->
      heap p' !! r = Some DISCONNECTED
      /\ Forall (fun a => is_push a = true) t).
Proof.
  intros Hrun r. rewrite connect_slot_cases in Hrun. fold r in Hrun.
  destruct p as [[m els] cn lz h]. simpl in *.
  destruct lz; [|destruct (net r) as [e|]];
    try destruct (stack_push m els _) as [o' els'];
    inversion Hrun; subst; simpl;
    repeat split; auto;
    first [ discriminate
          | apply lookup_insert_eq
          | intros r' Hne; rewrite lookup_insert_ne; auto; fail
          | left; apply lookup_insert_eq
          | right; split; [reflexivity | apply lookup_insert_eq]
          | repeat constructor; fail ].
Qed.

(** What the whole loop keeps, whatever the stack and the network do and
    however the loop ends. *)
Lemma connect_loop_keeps (n : nat) :
  forall (p p' : MysqlClientPool) (o : Outcome unit) (t : list Action),
    connect_loop stack_push net n p = (o, p', t) ->
    connected p' = connected p
    /\ lazyInitialization p' = lazyInitialization p
    /\ maxSize (deferredStack p') = maxSize (deferredStack p)
    /\ (forall r, is_Some (heap p !! r) -> heap p' !! r = heap p !! r)
    /\ (forall c, c ∈ pushed_clients t ->
          release_method c = BoundToPool
          /\ heap p !! connection c = None
          /\ is_Some (heap p' !! connection c))
    /\ NoDup (connection <$> pushed_clients t)
    /\ (lazyInitialization p = true ->
        Forall (fun a => is_push a = true) t
        /\ forall r, heap p !! r = None ->
             heap p' !! r = None \/ heap p' !! r = Some DISCONNECTED).
Proof.
  induction n as [|n IH]; intros p p' o t Hrun.
  - inversion Hrun; subst. simpl.
    split; [reflexivity|]. split; [reflexivity|]. split; [reflexivity|].
    split; [reflexivity|]. split; [intros c Hc; inversion Hc|].
    split; [constructor|]. intros _. split; [constructor | auto].
  - cbn [connect_loop] in Hrun. unfold bind at 1 in Hrun.
    destruct (connect_slot stack_push net p) as [[o1 p1] t1] eqn:Hslot.
    pose proof (connect_slot_keeps _ _ _ _ Hslot)
      as (Hcn1 & Hlz1 & Hm1 & Hfr1 & Hr1 & Hpush1 & Hlazy1).
    set (r := fresh (dom (heap p))) in *.
    assert (Hfresh : heap p !! r = None) by (apply not_elem_of_dom, is_fresh).
    assert (Hsome1 : is_Some (heap p1 !! r)).
    { destruct Hr1 as [->|[_ ->]]; eauto. }
    assert (Hold1 : forall r', is_Some (heap p !! r') ->
                               heap p1 !! r' = heap p !! r').
    { intros r' Hs. apply Hfr1. intros ->. rewrite Hfresh in Hs.
      destruct Hs; discriminate. }
    destruct o1 as [[]|e].
    + destruct (connect_loop stack_push net n p1) as [[o2 p2] t2] eqn:Hrest.
      inversion Hrun; subst; clear Hrun.
      destruct (IH _ _ _ _ Hrest) as (Hcn & Hlz & Hm & Hfr & Hp & Hnd & Hlazy).
      assert (Hpushed : pushed_clients (t1 ++ t2)
                        = pushed_clients t1 ++ pushed_clients t2).
      { unfold pushed_clients. apply omap_app. }
      split; [congruence|]. split; [congruence|]. split; [congruence|].
      split.
      { intros r' Hs. rewrite Hfr; [apply Hold1, Hs|].
        rewrite Hold1; auto. }
      split.
      { intros c Hc. rewrite Hpushed in Hc. apply elem_of_app in Hc as [Hc|Hc].
        - destruct Hpush1 as [H0|H1]; [rewrite H0 in Hc; inversion Hc|].
          rewrite H1 in Hc. apply list_elem_of_singleton in Hc. subst c. simpl.
          split; [reflexivity|]. split; [exact Hfresh|].
          rewrite Hfr; auto.
        - destruct (Hp c Hc) as (Hb & Hnone & Hs).
          split; [exact Hb|]. split; [|exact Hs].
          destruct (decide (connection c = r)) as [Heq|Hne].
          + rewrite Heq in Hnone. rewrite Hnone in Hsome1.
            destruct Hsome1; discriminate.
          + rewrite <- (Hfr1 _ Hne). exact Hnone. }
      split.
      { rewrite Hpushed, fmap_app. apply NoDup_app. split; [|split].
        - destruct Hpush1 as [->| ->]; simpl; repeat constructor.
          intros H; inversion H.
        - intros x Hx1 Hx2.
          destruct Hpush1 as [H0|H1]; [rewrite H0 in Hx1; inversion Hx1|].
          rewrite H1 in Hx1. simpl in Hx1.
          apply list_elem_of_singleton in Hx1. subst x.
          apply list_elem_of_fmap in Hx2 as (c & Hc & Hin).
          destruct (Hp c Hin) as (_ & Hnone & _). rewrite <- Hc in Hnone.
          rewrite Hnone in Hsome1. destruct Hsome1; discriminate.
        - exact Hnd. }
      intros Hl. destruct (Hlazy1 Hl) as (Hd & Hall1).
      destruct Hlazy as (Hall2 & Hnew); [congruence|].
      split; [apply Forall_app; split; assumption|].
      intros r' Hnone. destruct (decide (r' = r)) as [->|Hne].
      * right. rewrite Hfr; auto.
      * apply Hnew. rewrite Hfr1; auto.
    + inversion Hrun; subst; clear Hrun.
      split; [exact Hcn1|]. split; [exact Hlz1|]. split; [exact Hm1|].
      split; [exact Hold1|]. split.
      { intros c Hc.
        destruct Hpush1 as [H0|H1]; [rewrite H0 in Hc; inversion Hc|].
        rewrite H1 in Hc. apply list_elem_of_singleton in Hc. subst c. simpl.
        auto. }
      split.
      { destruct Hpush1 as [->| ->]; simpl; repeat constructor.
        intros H; inversion H. }
      intros Hl. destruct (Hlazy1 Hl) as (Hd & Hall1).
      split; [exact Hall1|].
      intros r' Hnone. destruct (decide (r' = r)) as [->|Hne].
      * right. exact Hd.
      * left. rewrite Hfr1; auto.
Qed.

(** The loop pushes at most once per turn. *)
Lemma connect_loop_push_count (n : nat) :
  forall (p p' : MysqlClientPool) (o : Outcome unit) (t : list Action),
    connect_loop stack_push net n p = (o, p', t) ->
    length (pushed_clients t) <= n.
Proof.
  induction n as [|n IH]; intros p p' o t Hrun.
  - inversion Hrun; subst. simpl. lia.
  - cbn [connect_loop] in Hrun. unfold bind at 1 in Hrun.
    destruct (connect_slot stack_push net p) as [[o1 p1] t1] eqn:Hslot.
    pose proof (connect_slot_keeps _ _ _ _ Hslot)
      as (_ & _ & _ & _ & _ & Hpush1 & _).
    assert (Hone : length (pushed_clients t1) <= 1).
    { destruct Hpush1 as [->| ->]; simpl; lia. }
    destruct o1 as [[]|e].
    + destruct (connect_loop stack_push net n p1) as [[o2 p2] t2] eqn:Hrest.
      inversion Hrun; subst; clear Hrun.
      unfold pushed_clients in *. rewrite omap_app, length_app.
      specialize (IH _ _ _ _ Hrest). lia.
    + inversion Hrun; subst. lia.
Qed.

(** X1. However [connect()] ends, it leaves [maxSize] and
    [lazyInitialization] as they were; [connected] is [true] when it
    returns and is left as it was when it raises. *)
Theorem connect_sets_connected_on_return
    (p p' : MysqlClientPool) (o : Outcome unit) (t : list Action)
    (Hrun : connect stack_push net p = (o, p', t)) :
  match o with
  | Returns _ => connected p' = true
  | Raises _ => connected p' = connected p
  end
  /\ lazyInitialization p' = lazyInitialization p
  /\ maxSize (deferredStack p') = maxSize (deferredStack p).
Proof.
  unfold connect, bind, gets, modify in Hrun.
  destruct (connect_loop stack_push net (maxSize (deferredStack p)) p)
    as [[o1 p1] t1] eqn:Hloop.
  destruct (connect_loop_keeps _ _ _ _ _ Hloop) as (Hcn & Hlz & Hm & _).
  destruct o1 as [[]|e]; inversion Hrun; subst; simpl; auto.
Qed.

(** X2. [connect()] does not touch a connection that exists already (one
    checked out, say): whatever the stack and the network do and however
    the call ends, every connection of the heap keeps its state. *)
Theorem connect_keeps_existing_connections
    (p p' : MysqlClientPool) (o : Outcome unit) (t : list Action) (r : nat)
    (Hrun : connect stack_push net p = (o, p', t))
    (Hold : is_Some (heap p !! r)) :
  heap p' !! r = heap p !! r.
Proof.
  unfold connect, bind, gets, modify in Hrun.
  destruct (connect_loop stack_push net (maxSize (deferredStack p)) p)
    as [[o1 p1] t1] eqn:Hloop.
  destruct (connect_loop_keeps _ _ _ _ _ Hloop) as (_ & _ & _ & Hfr & _).
  destruct o1 as [[]|e]; inversion Hrun; subst; simpl; auto.
Qed.

(** X3. Every client [connect()] hands to the deferred stack has its
    [release] bound to the pool and wraps a connection made by this call,
    and no two of them wrap the same connection; at most [maxSize] clients
    are pushed. *)
Theorem connect_pushes_fresh_bound_clients
    (p p' : MysqlClientPool) (o : Outcome unit) (t : list Action)
    (Hrun : connect stack_push net p = (o, p', t)) :
  (forall c : MysqlPoolClient,
     c ∈ pushed_clients t ->
     release_method c = BoundToPool
     /\ heap p !! connection c = None
     /\ is_Some (heap p' !! connection c))
  /\ NoDup (connection <$> pushed_clients t)
  /\ length (pushed_clients t) <= maxSize (deferredStack p).
Proof.
  unfold connect, bind, gets, modify in Hrun.
  destruct (connect_loop stack_push net (maxSize (deferredStack p)) p)
    as [[o1 p1] t1] eqn:Hloop.
  destruct (connect_loop_keeps _ _ _ _ _ Hloop)
    as (_ & _ & _ & _ & Hp & Hnd & _).
  pose proof (connect_loop_push_count _ _ _ _ _ Hloop) as Hcount.
  destruct o1 as [[]|e]; inversion Hrun; subst; simpl;
    rewrite ?app_nil_r; auto.
Qed.

(** X4. With [lazyInitialization] set, [connect()] does nothing but push:
    it opens no connection and dispatches no event, and a connection is
    [CONNECTED] afterwards only if it was before. *)
Theorem connect_lazy_opens_nothing
    (p p' : MysqlClientPool) (o : Outcome unit) (t : list Action)
    (Hlazy : lazyInitialization p = true)
    (Hrun : connect stack_push net p = (o, p', t)) :
  Forall (fun a => is_push a = true) t
  /\ (forall r, heap p' !! r = Some CONNECTED -> heap p !! r = Some CONNECTED).
Proof.
  unfold connect, bind, gets, modify in Hrun.
  destruct (connect_loop stack_push net (maxSize (deferredStack p)) p)
    as [[o1 p1] t1] eqn:Hloop.
  destruct (connect_loop_keeps _ _ _ _ _ Hloop)
    as (_ & _ & _ & Hfr & _ & _ & Hl).
  destruct (Hl Hlazy) as (Hall & Hnew).
  assert (Hheap : forall r, heap p1 !! r = Some CONNECTED ->
                            heap p !! r = Some CONNECTED).
  { intros r Hr. destruct (heap p !! r) as [st|] eqn:Hp.
    - rewrite <- Hr. symmetry. rewrite <- Hp. apply Hfr. rewrite Hp. eauto.
    - destruct (Hnew r Hp) as [H|H]; rewrite H in Hr; discriminate. }
  destruct o1 as [[]|e]; inversion Hrun; subst; simpl;
    rewrite ?app_nil_r; auto.
Qed.

(** X5. With eager initialization, when the first connection fails to
    open with [e], [connect()] raises [e] at once: nothing is pushed, no
    connect event is dispatched, [connected] and the idle collection are
    as they were, and the connection just made stays unopened. *)
Theorem connect_first_open_fails
    (p : MysqlClientPool) (e : Error)
    (Heager : lazyInitialization p = false)
    (Hslots : 0 < maxSize (deferredStack p))
    (Hfail : net (fresh (dom (heap p))) = Some e) :
  connect stack_push net p =
    (Raises e,
     set_heap (<[fresh (dom (heap p)) := DISCONNECTED]> (heap p)) p,
     [ConnConnect (fresh (dom (heap p)))]).
Proof.
  unfold connect, bind at 1, gets.
  destruct (maxSize (deferredStack p)) as [|n] eqn:Hm; [lia|].
  unfold bind at 1. cbn [connect_loop]. unfold bind at 1.
  rewrite connect_slot_cases. rewrite Heager, Hfail. reflexivity.
Qed.

(** What the loop of [close] keeps, and what it means that it returned. *)
Lemma close_loop_outcome (clients : list MysqlPoolClient) :
  forall (p p' : MysqlClientPool) (o : Outcome unit) (t : list Action),
    close_loop close_fails clients p = (o, p', t) ->
    deferredStack p' = deferredStack p
    /\ connected p' = connected p
    /\ (o = Returns tt ->
        forall c, c ∈ clients -> close_fails (connection c) = None).
Proof.
  induction clients as [|c cs IH]; intros p p' o t Hrun.
  - inversion Hrun; subst. split; [reflexivity|]. split; [reflexivity|].
    intros _ c Hc. inversion Hc.
  - cbn [close_loop] in Hrun. unfold bind at 1 in Hrun.
    unfold dispatchEvent, emit in Hrun. unfold bind at 1 in Hrun.
    unfold connection_close at 1 in Hrun.
    destruct (close_fails (connection c)) as [e|] eqn:Hc.
    + inversion Hrun; subst. split; [reflexivity|]. split; [reflexivity|].
      discriminate.
    + destruct (close_loop close_fails cs _) as [[o2 p2] t2] eqn:Hrest.
      inversion Hrun; subst; clear Hrun.
      destruct (IH _ _ _ _ Hrest) as (Hst & Hcn & Hall).
      split; [rewrite Hst; reflexivity|]. split; [rewrite Hcn; reflexivity|].
      intros Ho c' Hc'. apply elem_of_cons in Hc' as [->|Hc']; auto.
Qed.

(** X6. [destroy(client)] dispatches the destroy event and then calls
    [close()] on the client's connection, and ends as that close ends: it
    returns with the connection closed, or it raises the error of the
    close with the connection left as it was.  Either way it leaves the
    deferred stack (so also a client that is idle) and [connected] as they
    were, and no other connection changes state. *)
Theorem destroy_closes_one_connection
    (client : MysqlPoolClient) (p : MysqlClientPool) :
  exists (o : Outcome unit) (p' : MysqlClientPool),
    destroy close_fails client p =
      (o, p',
       [Dispatch (MysqlPoolConnectionDestroyEvent client);
        ConnClose (connection client)])
    /\ deferredStack p' = deferredStack p
    /\ connected p' = connected p
    /\ (forall r, r <> connection client -> heap p' !! r = heap p !! r)
    /\ (close_fails (connection client) = None ->
        o = Returns tt /\ heap p' !! connection client = Some CLOSED)
    /\ (forall e : Error,
          close_fails (connection client) = Some e ->
          o = Raises e /\ heap p' = heap p).
Proof.
  unfold destroy, bind, dispatchEvent, emit, connection_close.
  destruct (close_fails (connection client)) as [e|]; simpl;
    eexists _, _; (split; [reflexivity|]); simpl;
    (split; [reflexivity|]); (split; [reflexivity|]).
  - split; [reflexivity|]. split; [discriminate|].
    intros e' He'. inversion He'; subst. auto.
  - split; [intros r Hne; rewrite lookup_insert_ne; auto|].
    split; [intros _; split; [reflexivity | apply lookup_insert_eq]|].
    discriminate.
Qed.

(** X7. [close()] does not stop the pool from handing out clients: a
    client of the idle collection that [acquire()] would return before
    [close()] is returned just the same after it, whether [close()]
    returned or raised, by a pool that is no longer connected; and when
    [close()] returned, the connection of that client is closed. *)
Theorem acquire_after_close
    (p q : MysqlClientPool) (c : MysqlPoolClient) (t : list Action)
    (Hacq : acquire stack_pop p = (Some c, q, t))
    (Hidle : c ∈ elements (deferredStack p)) :
  exists (o : Outcome unit) (p' q' : MysqlClientPool) (tc : list Action),
    close close_fails p = (o, p', tc)
    /\ acquire stack_pop p' = (Some c, q', t)
    /\ connected q' = false
    /\ (o = Returns tt -> heap q' !! connection c = Some CLOSED).
Proof.
  unfold acquire in Hacq.
  destruct (stack_pop _ _) as [[c'|] els] eqn:Hpop; [|discriminate].
  inversion Hacq; subst; clear Hacq.
  unfold close, bind, modify, gets. cbn [set_connected deferredStack].
  destruct (close_loop close_fails (elements (deferredStack p))
              (set_connected false p))
    as [[o p'] tc] eqn:Hloop.
  destruct (close_loop_outcome _ _ _ _ _ Hloop) as (Hst & Hcn & Hall).
  simpl in Hst, Hcn.
  exists o, p', (set_elements els p'), ([] ++ [] ++ tc).
  split; [reflexivity|].
  unfold acquire. rewrite Hst, Hpop.
  split; [reflexivity|]. split; [exact Hcn|].
  intros Ho. specialize (Hall Ho).
  rewrite (PoolProperties.close_loop_run close_fails _ _ Hall) in Hloop.
  inversion Hloop; subst. simpl.
  apply PoolProperties.closed_heap_member, Hidle.
Qed.

(** X8. [release], [destroy] and [acquire] never look at [connected]:
    each does on a pool with the flag set to [b] what it does on the pool
    as it is, and leaves the flag at [b]. *)
Theorem connected_is_not_consulted
    (b : bool) (client : MysqlPoolClient) (p : MysqlClientPool) :
  release stack_push close_fails client (set_connected b p) =
    (match release stack_push close_fails client p with
     | (o, p', t) => (o, set_connected b p', t)
     end)
  /\ destroy close_fails client (set_connected b p) =
     (match destroy close_fails client p with
      | (o, p', t) => (o, set_connected b p', t)
      end)
  /\ acquire stack_pop (set_connected b p) =
     (match acquire stack_pop p with
      | (o, p', t) => (o, set_connected b p', t)
      end).
Proof.
  destruct p as [[m els] cn lz h].
  unfold release, destroy, acquire, bind, try_catch, dispatchEvent,
    logger_debug, emit, deferredStack_push, connection_close, throw.
  simpl. split; [|split].
  - destruct (stack_push m els client) as [[[]|[err| | |v]] els']; simpl;
      try reflexivity.
    destruct (is_max_pool_size_error err); [|reflexivity].
    destruct (close_fails (connection client)); reflexivity.
  - destruct (close_fails (connection client)); reflexivity.
  - destruct (stack_pop m els) as [[c|] els']; reflexivity.
Qed.

(** X9. A release that overflows closes a connection that may still be
    idle: when the push of [client] fails with "Max pool size reached" and
    leaves the idle collection as it is, and the close of its connection
    succeeds, a [client] that is in the idle collection stays there, now
    with its connection closed. *)
Theorem release_overflow_closes_idle_client
    (client : MysqlPoolClient) (p : MysqlClientPool) (e : Error)
    (Hpush : stack_push (maxSize (deferredStack p))
                        (elements (deferredStack p)) client
             = (Raises e, elements (deferredStack p)))
    (Hmax : is_max_pool_size_error e = true)
    (Hclose : close_fails (connection client) = None)
    (Hidle : client ∈ elements (deferredStack p)) :
  exists (p' : MysqlClientPool) (t : list Action),
    release stack_push close_fails client p = (Raises e, p', t)
    /\ client ∈ elements (deferredStack p')
    /\ heap p' !! connection client = Some CLOSED.
Proof.
  unfold release, bind, try_catch, dispatchEvent, logger_debug, emit,
    deferredStack_push, connection_close, throw.
  rewrite Hpush. simpl. rewrite Hmax. simpl. rewrite Hclose. simpl.
  eexists _, _. split; [reflexivity|]. simpl.
  split; [exact Hidle | apply lookup_insert_eq].
Qed.

(** X10. [close()] twice: the second call leaves the pool as the first
    left it, and dispatches the close events and closes the idle
    connections all over again. *)
Theorem close_twice
    (p p' : MysqlClientPool) (t : list Action)
    (Hclose : close close_fails p = (Returns tt, p', t)) :
  close close_fails p' = (Returns tt, p', t).
Proof.
  unfold close, bind, modify, gets in *.
  cbn [set_connected deferredStack] in *.
  destruct (close_loop close_fails (elements (deferredStack p))
              (set_connected false p))
    as [[o p1] t1] eqn:Hloop.
  assert (Ho : o = Returns tt) by (inversion Hclose; reflexivity).
  subst o.
  destruct (close_loop_outcome _ _ _ _ _ Hloop) as (_ & _ & Hall).
  specialize (Hall eq_refl).
  rewrite (PoolProperties.close_loop_run close_fails _ _ Hall) in Hloop.
  inversion Hloop; subst p1 t1; clear Hloop.
  inversion Hclose; subst p' t; clear Hclose. simpl.
  rewrite (PoolProperties.close_loop_run close_fails _ _ Hall). simpl.
  f_equal. f_equal. unfold set_heap; simpl. f_equal.
  apply map_eq. intros r.
  destruct (decide (r ∈ connection <$> elements (deferredStack p)))
    as [Hin|Hout].
  - apply list_elem_of_fmap in Hin as (c & -> & Hc).
    rewrite !PoolProperties.closed_heap_member; auto.
  - rewrite !PoolProperties.closed_heap_frame; auto.
Qed.

(** The events of one turn of the loop of [connect]. *)
Lemma connect_slot_events (p p' : MysqlClientPool) (o : Outcome unit)
    (t : list Action) (ev : Event) :
  connect_slot stack_push net p = (o, p', t) ->
  Dispatch ev ∈ t ->
  exists (c : MysqlPoolClient) (post : list Action),
    ev = MysqlConnectionConnectEvent c
    /\ net (connection c) = None
    /\ lazyInitialization p = false
    /\ t = ConnConnect (connection c) :: Dispatch ev :: post.
Proof.
  intros Hrun Hin. rewrite connect_slot_cases in Hrun.
  destruct (lazyInitialization p).
  - destruct (stack_push _ _ _) as [o' els']. inversion Hrun; subst.
    apply list_elem_of_singleton in Hin. discriminate.
  - destruct (net (fresh (dom (heap p)))) as [e|] eqn:Hnet.
    + inversion Hrun; subst.
      apply list_elem_of_singleton in Hin. discriminate.
    + destruct (stack_push _ _ _) as [o' els']. inversion Hrun; subst.
      apply elem_of_cons in Hin as [Hin|Hin]; [discriminate|].
      apply elem_of_cons in Hin as [Hin|Hin].
      * inversion Hin; subst. eexists _, _. repeat split. exact Hnet.
      * apply list_elem_of_singleton in Hin. discriminate.
Qed.

Lemma connect_loop_events (n : nat) :
  forall (p p' : MysqlClientPool) (o : Outcome unit) (t : list Action)
         (ev : Event),
    connect_loop stack_push net n p = (o, p', t) ->
    Dispatch ev ∈ t ->
    lazyInitialization p = false
    /\ exists (c : MysqlPoolClient) (pre post : list Action),
         ev = MysqlConnectionConnectEvent c
         /\ net (connection c) = None
         /\ t = pre ++ ConnConnect (connection c) :: Dispatch ev :: post.
Proof.
  induction n as [|n IH]; intros p p' o t ev Hrun Hin.
  - inversion Hrun; subst. inversion Hin.
  - cbn [connect_loop] in Hrun. unfold bind at 1 in Hrun.
    destruct (connect_slot stack_push net p) as [[o1 p1] t1] eqn:Hslot.
    pose proof (connect_slot_keeps _ _ _ _ Hslot) as (_ & Hlz & _).
    assert (Hhead : Dispatch ev ∈ t1 ->
              lazyInitialization p = false
              /\ exists c post, ev = MysqlConnectionConnectEvent c
                   /\ net (connection c) = None
                   /\ t1 = ConnConnect (connection c) :: Dispatch ev :: post).
    { intros H1.
      destruct (connect_slot_events _ _ _ _ _ Hslot H1)
        as (c & post & Hev & Hnet & Hl & Ht). eauto 10. }
    destruct o1 as [[]|e].
    + destruct (connect_loop stack_push net n p1) as [[o2 p2] t2] eqn:Hrest.
      inversion Hrun; subst; clear Hrun.
      apply elem_of_app in Hin as [Hin|Hin].
      * destruct (Hhead Hin) as (Hl & c & post & Hev & Hnet & Ht).
        split; [exact Hl|]. exists c, [], (post ++ t2).
        split; [exact Hev|]. split; [exact Hnet|]. rewrite Ht. reflexivity.
      * destruct (IH _ _ _ _ _ Hrest Hin)
          as (Hl & c & pre & post & Hev & Hnet & Ht).
        split; [congruence|]. exists c, (t1 ++ pre), post.
        split; [exact Hev|]. split; [exact Hnet|].
        rewrite Ht, <- app_assoc. reflexivity.
    + inversion Hrun; subst; clear Hrun.
      destruct (Hhead Hin) as (Hl & c & post & Hev & Hnet & Ht).
      split; [exact Hl|]. exists c, [], post. auto.
Qed.

(** X22. The only events [connect()] dispatches are connect events, and
    only with eager initialization: each comes right after the call that
    opened the connection of its client, and that call succeeded. *)
Theorem connect_event_follows_open
    (p p' : MysqlClientPool) (o : Outcome unit) (t : list Action) (ev : Event)
    (Hrun : connect stack_push net p = (o, p', t))
    (Hev : Dispatch ev ∈ t) :
  lazyInitialization p = false
  /\ exists (c : MysqlPoolClient) (pre post : list Action),
       ev = MysqlConnectionConnectEvent c
       /\ net (connection c) = None
       /\ t = pre ++ ConnConnect (connection c) :: Dispatch ev :: post.
Proof.
  unfold connect, bind, gets, modify in Hrun.
  destruct (connect_loop stack_push net (maxSize (deferredStack p)) p)
    as [[o1 p1] t1] eqn:Hloop.
  assert (Ht : t = t1).
  { destruct o1 as [[]|e]; inversion Hrun; subst; simpl;
      rewrite ?app_nil_r; reflexivity. }
  subst t1. exact (connect_loop_events _ _ _ _ _ _ Hloop Hev).
Qed.

End AnyStack.

Lemma connect_loop_lazy_any_network
    (stack_push : nat -> list MysqlPoolClient -> MysqlPoolClient ->
                  Outcome unit * list MysqlPoolClient)
    (net1 net2 : nat -> option Error) (n : nat) :
  forall p : MysqlClientPool,
    lazyInitialization p = true ->
    connect_loop stack_push net1 n p = connect_loop stack_push net2 n p.
Proof.
  induction n as [|n IH]; intros p Hlazy; [reflexivity|].
  cbn [connect_loop]. unfold bind.
  destruct (connect_slot stack_push net1 p) as [[o1 p1] t1] eqn:Hslot.
  pose proof (connect_slot_keeps _ _ _ _ _ _ Hslot) as (_ & Hlz & _).
  rewrite !connect_slot_cases, Hlazy in *. rewrite Hslot.
  destruct o1 as [[]|e]; [|reflexivity].
  rewrite (IH p1) by congruence. reflexivity.
Qed.

(** X11. With [lazyInitialization] set, what [connect()] does is the same
    on every network: no failure to open a connection can reach it. *)
Theorem connect_lazy_ignores_network
    (stack_push : nat -> list MysqlPoolClient -> MysqlPoolClient ->
                  Outcome unit * list MysqlPoolClient)
    (net1 net2 : nat -> option Error) (p : MysqlClientPool)
    (Hlazy : lazyInitialization p = true) :
  connect stack_push net1 p = connect stack_push net2 p.
Proof.
  unfold connect, bind, gets.
  rewrite (connect_loop_lazy_any_network stack_push net1 net2 _ p Hlazy).
  reflexivity.
Qed.

Import PoolScenarios MoreScenarios.

(** X1: a [connect()] that returns on a fresh pool, and one that raises on
    a pool that is not connected and has its one slot idle. *)
Lemma connect_sets_connected_on_return_witness :
  connected (state_of (connect spec_push reliable_net fresh_pool)) = true
  /\ outcome_of (connect spec_push reliable_net stale_pool)
     = Raises max_pool_size_reached
  /\ connected (state_of (connect spec_push reliable_net stale_pool)) = false.
Proof.
  split; [|split].
  - exact (proj1 (connect_sets_connected_on_return spec_push reliable_net
                    fresh_pool
                    (state_of (connect spec_push reliable_net fresh_pool))
                    (outcome_of (connect spec_push reliable_net fresh_pool))
                    (trace_of (connect spec_push reliable_net fresh_pool))
                    eq_refl)).
  - reflexivity.
  - exact (proj1 (connect_sets_connected_on_return spec_push reliable_net
                    stale_pool
                    (state_of (connect spec_push reliable_net stale_pool))
                    (outcome_of (connect spec_push reliable_net stale_pool))
                    (trace_of (connect spec_push reliable_net stale_pool))
                    eq_refl)).
Defined.

(** X2: connection 2 of the busy pool, which is checked out. *)
Lemma connect_keeps_existing_connections_witness :
  heap (state_of (connect spec_push reliable_net busy_pool)) !! 2
  = Some CONNECTED.
Proof.
  apply (eq_trans
           (connect_keeps_existing_connections spec_push reliable_net
              busy_pool
              (state_of (connect spec_push reliable_net busy_pool))
              (outcome_of (connect spec_push reliable_net busy_pool))
              (trace_of (connect spec_push reliable_net busy_pool))
              2 eq_refl (ex_intro _ CONNECTED eq_refl))).
  reflexivity.
Defined.

(** X3: the second client pushed on the fresh pool. *)
Lemma connect_pushes_fresh_bound_clients_witness :
  heap fresh_pool !! 1 = None
  /\ is_Some (heap (state_of (connect spec_push reliable_net fresh_pool)) !! 1)
  /\ length (pushed_clients (trace_of (connect spec_push reliable_net fresh_pool)))
     <= 2.
Proof.
  destruct (connect_pushes_fresh_bound_clients spec_push reliable_net
              fresh_pool
              (state_of (connect spec_push reliable_net fresh_pool))
              (outcome_of (connect spec_push reliable_net fresh_pool))
              (trace_of (connect spec_push reliable_net fresh_pool))
              eq_refl) as (Hall & _ & Hlen).
  destruct (Hall (mkClient 1 BoundToPool)) as (_ & Hnew & Hsome).
  - apply (bool_decide_unpack _). reflexivity.
  - split; [exact Hnew|]. split; [exact Hsome | exact Hlen].
Defined.

(** X4: the lazy pool, on a network that is down. *)
Lemma connect_lazy_opens_nothing_witness :
  Forall (fun a => is_push a = true)
         (trace_of (connect spec_push down_net lazy_pool))
  /\ outcome_of (connect spec_push down_net lazy_pool) = Returns tt.
Proof.
  split; [|reflexivity].
  exact (proj1 (connect_lazy_opens_nothing spec_push down_net lazy_pool
                  (state_of (connect spec_push down_net lazy_pool))
                  (outcome_of (connect spec_push down_net lazy_pool))
                  (trace_of (connect spec_push down_net lazy_pool))
                  eq_refl eq_refl)).
Defined.

(** X5: the fresh pool, on a network that is down. *)
Lemma connect_first_open_fails_witness :
  connect spec_push down_net fresh_pool =
    (Raises connection_refused,
     mkPool (mkStack 2 []) false false (<[0 := DISCONNECTED]> ∅),
     [ConnConnect 0]).
Proof.
  apply (connect_first_open_fails spec_push down_net fresh_pool
           connection_refused); [reflexivity | simpl; lia | reflexivity].
Defined.

(** X7: the busy pool hands out client B before and after a [close()]
    that returns. *)
Lemma acquire_after_close_witness :
  exists (p' q' : MysqlClientPool) (tc : list Action),
    close clean_close busy_pool = (Returns tt, p', tc)
    /\ acquire spec_pop p' =
       (Some clientB, q',
        [StackPop; Dispatch (MysqlPoolConnectionAcquireEvent clientB)])
    /\ connected q' = false
    /\ heap q' !! 1 = Some CLOSED.
Proof.
  destruct (acquire_after_close spec_pop clean_close busy_pool
              (snd (fst (acquire spec_pop busy_pool))) clientB
              [StackPop; Dispatch (MysqlPoolConnectionAcquireEvent clientB)]
              eq_refl)
    as (o & p' & q' & tc & Hclose & Hacq & Hcn & Hclosed).
  - apply list_elem_of_further, list_elem_of_here.
  - assert (Ho : o = Returns tt).
    { change (close clean_close busy_pool)
        with (Returns tt, state_of (close clean_close busy_pool),
              trace_of (close clean_close busy_pool)) in Hclose.
      inversion Hclose; reflexivity. }
    subst o. exists p', q', tc.
    split; [exact Hclose|]. split; [exact Hacq|]. split; [exact Hcn|].
    exact (Hclosed eq_refl).
Defined.

(** X9: client A is idle in the full pool and is released once more. *)
Lemma release_overflow_closes_idle_client_witness :
  exists (p' : MysqlClientPool) (t : list Action),
    release spec_push clean_close clientA full_pool
      = (Raises max_pool_size_reached, p', t)
    /\ clientA ∈ elements (deferredStack p')
    /\ heap p' !! 0 = Some CLOSED.
Proof.
  apply (release_overflow_closes_idle_client spec_push clean_close clientA
           full_pool max_pool_size_reached eq_refl eq_refl eq_refl).
  apply list_elem_of_here.
Defined.

(** X10: the busy pool, closed twice. *)
Lemma close_twice_witness :
  close clean_close (state_of (close clean_close busy_pool)) =
    (Returns tt, state_of (close clean_close busy_pool),
     [Dispatch (MysqlConnectionCloseEvent clientA); ConnClose 0;
      Dispatch (MysqlConnectionCloseEvent clientB); ConnClose 1]).
Proof.
  apply (close_twice clean_close busy_pool
           (state_of (close clean_close busy_pool))
           (trace_of (close clean_close busy_pool))).
  reflexivity.
Defined.

(** X11: the lazy pool on a network that is down and on one that is up. *)
Lemma connect_lazy_ignores_network_witness :
  connect spec_push down_net lazy_pool
  = connect spec_push reliable_net lazy_pool.
Proof.
  apply (connect_lazy_ignores_network spec_push down_net reliable_net lazy_pool).
  reflexivity.
Defined.

(** X22: the connect event of the second client of the fresh pool. *)
Lemma connect_event_follows_open_witness :
  exists (pre post : list Action),
    trace_of (connect spec_push reliable_net fresh_pool) =
      pre ++ ConnConnect 1
          :: Dispatch (MysqlConnectionConnectEvent (mkClient 1 BoundToPool))
          :: post.
Proof.
  destruct (connect_event_follows_open spec_push reliable_net fresh_pool
              (state_of (connect spec_push reliable_net fresh_pool))
              (outcome_of (connect spec_push reliable_net fresh_pool))
              (trace_of (connect spec_push reliable_net fresh_pool))
              (MysqlConnectionConnectEvent (mkClient 1 BoundToPool))
              eq_refl)
    as (_ & c & pre & post & Hc & _ & Ht).
  - vm_compute. do 4 apply list_elem_of_further. apply list_elem_of_here.
  - inversion Hc; subst c. exists pre, post. exact Ht.
Defined.

(** X6: client A of the busy pool is destroyed while idle, with a close
    that succeeds and with one that fails; connection 2, checked out, is
    untouched. *)
Lemma destroy_closes_one_connection_witness :
  (exists p' : MysqlClientPool,
     destroy clean_close clientA busy_pool =
       (Returns tt, p',
        [Dispatch (MysqlPoolConnectionDestroyEvent clientA); ConnClose 0])
     /\ elements (deferredStack p') = [clientA; clientB]
     /\ heap p' !! 0 = Some CLOSED
     /\ heap p' !! 2 = Some CONNECTED)
  /\ (exists p' : MysqlClientPool,
        destroy (close_fails_on 0) clientA busy_pool =
          (Raises close_stuck, p',
           [Dispatch (MysqlPoolConnectionDestroyEvent clientA); ConnClose 0])
        /\ heap p' !! 0 = Some CONNECTED).
Proof.
  split.
  - destruct (destroy_closes_one_connection clean_close clientA busy_pool)
      as (o & p' & Hrun & Hstack & _ & Hframe & Hok & _).
    destruct (Hok eq_refl) as (Ho & Hclosed). subst o.
    exists p'. split; [exact Hrun|]. split; [rewrite Hstack; reflexivity|].
    split; [exact Hclosed|]. rewrite (Hframe 2); [reflexivity | discriminate].
  - destruct (destroy_closes_one_connection (close_fails_on 0) clientA
                busy_pool)
      as (o & p' & Hrun & _ & _ & _ & _ & Hfail).
    destruct (Hfail close_stuck eq_refl) as (Ho & Hheap). subst o.
    exists p'. split; [exact Hrun|]. rewrite Hheap. reflexivity.
Defined.

End PoolBehaviour.

(** * Further properties of the client facade *)
Module ClientBehaviour.
Import Client.

Section WithCollaborators.

Context {Conn Pool ExecuteResult QueryResult : Type}.
Variable state : Conn -> ConnectionState.
Variable conn_execute :
  string -> option (list JsValue) -> Conn -> Outcome ExecuteResult * Conn.
Variable conn_query :
  string -> option (list JsValue) -> Conn -> Outcome QueryResult * Conn.
Variable new_ConnectionPool : JsValue -> Pool.
Variable pool_pop : Pool -> Outcome Conn * Pool.
Variable returnToPool : Conn -> Pool -> Pool.
Variable removeFromPool : Conn -> Pool -> Pool.
Variable pool_close : Pool -> Pool.

Local Abbreviation run := (run_processor conn_execute conn_query).
Local Abbreviation body := (transaction_body state conn_execute conn_query).
Local Abbreviation borrow :=
  (useConnection state pool_pop returnToPool removeFromPool).
Local Abbreviation cleaned := (cleanup_pool state returnToPool removeFromPool).
Local Abbreviation transact :=
  (transaction state conn_execute conn_query pool_pop returnToPool removeFromPool).
Local Abbreviation run_query :=
  (query state conn_query pool_pop returnToPool removeFromPool).
Local Abbreviation run_execute :=
  (execute state conn_execute pool_pop returnToPool removeFromPool).

(** The transaction body when [BEGIN] fails. *)
Lemma transaction_body_begin_fails {T} (processor : TransactionProcessor _ _ T)
    (c0 c1 : Conn) (e : Thrown) :
  conn_execute "BEGIN" None c0 = (Raises e, c1) ->
  body processor c0 =
    if decide (state c1 = CONNECTED) then
      match message_of e with
      | Raises type_error => (Raises type_error, c1, [Execute "BEGIN" None])
      | Returns msg =>
          match conn_execute "ROLLBACK" None c1 with
          | (Returns _, c3) =>
              (Raises e, c3,
               [Execute "BEGIN" None;
                LoggerInfo (String.append "ROLLBACK: " msg);
                Execute "ROLLBACK" None])
          | (Raises e', c3) =>
              (Raises e', c3,
               [Execute "BEGIN" None;
                LoggerInfo (String.append "ROLLBACK: " msg);
                Execute "ROLLBACK" None])
          end
      end
    else (Raises e, c1, [Execute "BEGIN" None]).
Proof.
  intros Hb.
  unfold transaction_body, try_catch, bind, connection_execute, ret, gets,
    logger_info, emit, throw, evaluate.
  rewrite Hb. simpl.
  destruct (decide (state c1 = CONNECTED)); [|reflexivity].
  destruct (message_of e) as [msg|type_error]; [|reflexivity].
  destruct (conn_execute "ROLLBACK" None c1) as [[r|e'] c3]; reflexivity.
Qed.

(** The transaction body when [COMMIT] fails. *)
Lemma transaction_body_commit_fails {T} (processor : TransactionProcessor _ _ T)
    (c0 c1 c2 c3 : Conn) (r1 : ExecuteResult) (v : T) (e : Thrown)
    (stmts : list Action) :
  conn_execute "BEGIN" None c0 = (Returns r1, c1) ->
  run processor c1 = (Returns v, c2, stmts) ->
  conn_execute "COMMIT" None c2 = (Raises e, c3) ->
  body processor c0 =
    if decide (state c3 = CONNECTED) then
      match message_of e with
      | Raises type_error =>
          (Raises type_error, c3,
           Execute "BEGIN" None :: stmts ++ [Execute "COMMIT" None])
      | Returns msg =>
          match conn_execute "ROLLBACK" None c3 with
          | (Returns _, c4) =>
              (Raises e, c4,
               Execute "BEGIN" None :: stmts ++
               [Execute "COMMIT" None;
                LoggerInfo (String.append "ROLLBACK: " msg);
                Execute "ROLLBACK" None])
          | (Raises e', c4) =>
              (Raises e', c4,
               Execute "BEGIN" None :: stmts ++
               [Execute "COMMIT" None;
                LoggerInfo (String.append "ROLLBACK: " msg);
                Execute "ROLLBACK" None])
          end
      end
    else (Raises e, c3, Execute "BEGIN" None :: stmts ++ [Execute "COMMIT" None]).
Proof.
  intros Hb Hp Hc.
  unfold transaction_body, try_catch, bind, connection_execute, ret, gets,
    logger_info, emit, throw, evaluate.
  rewrite Hb, Hp, Hc. simpl.
  destruct (decide (state c3 = CONNECTED)).
  - destruct (message_of e) as [msg|type_error]; simpl.
    + destruct (conn_execute "ROLLBACK" None c3) as [[r|e'] c4]; simpl;
        rewrite <- ?app_assoc; reflexivity.
    + rewrite ?app_nil_r. reflexivity.
  - simpl. rewrite ?app_nil_r. reflexivity.
Qed.

(** The transaction body returns only when all three steps returned. *)
Lemma transaction_body_returns {T} (processor : TransactionProcessor _ _ T)
    (c0 c3 : Conn) (v : T) (t : list Action) :
  body processor c0 = (Returns v, c3, t) ->
  exists (c1 c2 : Conn) (r1 r3 : ExecuteResult) (stmts : list Action),
    conn_execute "BEGIN" None c0 = (Returns r1, c1)
    /\ run processor c1 = (Returns v, c2, stmts)
    /\ conn_execute "COMMIT" None c2 = (Returns r3, c3)
    /\ t = Execute "BEGIN" None :: stmts ++ [Execute "COMMIT" None].
Proof.
  intros Hbody.
  destruct (conn_execute "BEGIN" None c0) as [[r1|e] c1] eqn:Hb.
  - destruct (run processor c1) as [[[v'|e] c2] stmts] eqn:Hp.
    + destruct (conn_execute "COMMIT" None c2) as [[r3|e] c3'] eqn:Hc.
      * rewrite (ClientProperties.transaction_body_commits state conn_execute
                   conn_query _ _ _ _ _ _ _ _ _ Hb Hp Hc) in Hbody.
        inversion Hbody; subst. eauto 10.
      * rewrite (transaction_body_commit_fails _ _ _ _ _ _ _ _ _ Hb Hp Hc)
          in Hbody.
        destruct (decide _);
          [destruct (message_of e);
           [destruct (conn_execute "ROLLBACK" None c3') as [[?|?] ?]|]|];
          discriminate.
    + rewrite (ClientProperties.transaction_body_catches state conn_execute
                 conn_query _ _ _ _ _ _ _ Hb Hp) in Hbody.
      destruct (decide _);
        [destruct (message_of e);
         [destruct (conn_execute "ROLLBACK" None c2) as [[?|?] ?]|]|];
        discriminate.
  - rewrite (transaction_body_begin_fails _ _ _ _ Hb) in Hbody.
    destruct (decide _);
      [destruct (message_of e);
       [destruct (conn_execute "ROLLBACK" None c1) as [[?|?] ?]|]|];
      discriminate.
Qed.

(** The transaction body always starts with [BEGIN]. *)
Lemma transaction_body_begins {T} (processor : TransactionProcessor _ _ T)
    (c0 : Conn) :
  exists (o : Outcome T) (c' : Conn) (rest : list Action),
    body processor c0 = (o, c', Execute "BEGIN" None :: rest).
Proof.
  destruct (conn_execute "BEGIN" None c0) as [[r1|e] c1] eqn:Hb.
  - destruct (run processor c1) as [[[v|e] c2] stmts] eqn:Hp.
    + destruct (conn_execute "COMMIT" None c2) as [[r3|e] c3] eqn:Hc.
      * rewrite (ClientProperties.transaction_body_commits state conn_execute
                   conn_query _ _ _ _ _ _ _ _ _ Hb Hp Hc). eauto.
      * rewrite (transaction_body_commit_fails _ _ _ _ _ _ _ _ _ Hb Hp Hc).
        destruct (decide _);
          [destruct (message_of e);
           [destruct (conn_execute "ROLLBACK" None c3) as [[?|?] ?]|]|];
          eauto.
    + rewrite (ClientProperties.transaction_body_catches state conn_execute
                 conn_query _ _ _ _ _ _ _ Hb Hp).
      destruct (decide _);
        [destruct (message_of e);
         [destruct (conn_execute "ROLLBACK" None c2) as [[?|?] ?]|]|];
        eauto.
  - rewrite (transaction_body_begin_fails _ _ _ _ Hb).
    destruct (decide _);
      [destruct (message_of e);
       [destruct (conn_execute "ROLLBACK" None c1) as [[?|?] ?]|]|];
      eauto.
Qed.

(** X12. On a client that has no pool (before [connect], or after
    [close]), [useConnection], [query], [execute] and [transaction] all
    raise the [MysqlError] "Unconnected"; nothing is popped or run and the
    client is left as it is. *)
Theorem unconnected_client_raises {T U}
    (fn : M Conn Action T) (processor : TransactionProcessor _ _ U)
    (sql : string) (params : option (list JsValue)) (this : Client Pool)
    (Hnone : _pool this = None) :
  borrow fn this = (Raises (mkError MysqlError "Unconnected"), this, [])
  /\ run_query sql params this
     = (Raises (mkError MysqlError "Unconnected"), this, [])
  /\ run_execute sql params this
     = (Raises (mkError MysqlError "Unconnected"), this, [])
  /\ transact processor this
     = (Raises (mkError MysqlError "Unconnected"), this, []).
Proof.
  unfold query, execute, transaction, useConnection. rewrite Hnone.
  repeat split; reflexivity.
Qed.

(** X13. When [pool.pop()] raises, [useConnection] propagates that error:
    the work is not run, and neither [returnToPool] nor [removeFromPool]
    is called. *)
Theorem pop_failure_skips_work_and_cleanup {T}
    (fn : M Conn Action T) (this : Client Pool) (pool pool1 : Pool) (e : Thrown)
    (Hpool : _pool this = Some pool)
    (Hpop : pool_pop pool = (Raises e, pool1)) :
  borrow fn this = (Raises e, mkClient (config this) (Some pool1), [PoolPop])
  /\ forall U (processor : TransactionProcessor _ _ U),
       transact processor this
       = (Raises e, mkClient (config this) (Some pool1), [PoolPop]).
Proof.
  unfold transaction, useConnection. rewrite Hpool, Hpop.
  split; reflexivity.
Qed.

(** X14. When [BEGIN] fails with [e], the processor is not invoked: what
    [transaction] does is the same for every processor.  The failure is
    caught like any other: with the connection no longer [CONNECTED], [e]
    is raised after [BEGIN] alone; with the connection still [CONNECTED],
    [ROLLBACK] is run, and [e] is raised if it succeeds, its own error if
    it fails. *)
Theorem begin_failure_skips_processor {T}
    (processor : TransactionProcessor _ _ T)
    (this : Client Pool) (pool pool1 : Pool) (c0 c1 : Conn) (e : Error)
    (Hpool : _pool this = Some pool)
    (Hpop : pool_pop pool = (Returns c0, pool1))
    (Hbegin : conn_execute "BEGIN" None c0 = (Raises e, c1)) :
  (forall processor' : TransactionProcessor _ _ T,
     transact processor this = transact processor' this)
  /\ (state c1 <> CONNECTED ->
      transact processor this =
        (Raises e, mkClient (config this) (Some (cleaned c1 pool1)),
         [PoolPop; Execute "BEGIN" None; cleanup_action (state c1)]))
  /\ (state c1 = CONNECTED ->
      forall (o : Outcome ExecuteResult) (c3 : Conn),
        conn_execute "ROLLBACK" None c1 = (o, c3) ->
        transact processor this =
          (match o with Returns _ => Raises e | Raises e' => Raises e' end,
           mkClient (config this) (Some (cleaned c3 pool1)),
           [PoolPop; Execute "BEGIN" None;
            LoggerInfo (String.append "ROLLBACK: " (message e));
            Execute "ROLLBACK" None; cleanup_action (state c3)])).
Proof.
  split; [|split].
  - intros processor'. unfold transaction, useConnection.
    rewrite Hpool, Hpop.
    rewrite !(transaction_body_begin_fails _ _ _ _ Hbegin). reflexivity.
  - intros Hst.
    pose proof (transaction_body_begin_fails processor _ _ _ Hbegin) as Hbody.
    cbn [message_of] in Hbody.
    destruct (decide (state c1 = CONNECTED)); [contradiction|].
    unfold transaction.
    rewrite (ClientProperties.useConnection_run state pool_pop returnToPool
               removeFromPool _ _ _ _ _ _ _ _ Hpool Hpop Hbody).
    reflexivity.
  - intros Hst o c3 Hrb.
    pose proof (transaction_body_begin_fails processor _ _ _ Hbegin) as Hbody.
    cbn [message_of] in Hbody.
    destruct (decide (state c1 = CONNECTED)); [|contradiction].
    rewrite Hrb in Hbody. unfold transaction.
    destruct o as [r|e'];
      rewrite (ClientProperties.useConnection_run state pool_pop returnToPool
                 removeFromPool _ _ _ _ _ _ _ _ Hpool Hpop Hbody);
      reflexivity.
Qed.

(** X15. When the processor returns [v] and [COMMIT] then fails with [e],
    [v] is dropped and the failure is caught like one of the processor:
    with the connection no longer [CONNECTED], [e] is raised without a
    rollback; with the connection still [CONNECTED], [ROLLBACK] is run
    after the failed [COMMIT] and, if it succeeds, [e] is raised. *)
Theorem commit_failure_is_caught {T}
    (processor : TransactionProcessor _ _ T)
    (this : Client Pool) (pool pool1 : Pool) (c0 c1 c2 c3 : Conn)
    (r1 : ExecuteResult) (v : T) (e : Error) (stmts : list Action)
    (Hpool : _pool this = Some pool)
    (Hpop : pool_pop pool = (Returns c0, pool1))
    (Hbegin : conn_execute "BEGIN" None c0 = (Returns r1, c1))
    (Hproc : run processor c1 = (Returns v, c2, stmts))
    (Hcommit : conn_execute "COMMIT" None c2 = (Raises e, c3)) :
  (state c3 <> CONNECTED ->
   transact processor this =
     (Raises e, mkClient (config this) (Some (cleaned c3 pool1)),
      PoolPop :: Execute "BEGIN" None :: stmts
        ++ [Execute "COMMIT" None; cleanup_action (state c3)]))
  /\ (state c3 = CONNECTED ->
      forall (r : ExecuteResult) (c4 : Conn),
        conn_execute "ROLLBACK" None c3 = (Returns r, c4) ->
        transact processor this =
          (Raises e, mkClient (config this) (Some (cleaned c4 pool1)),
           PoolPop :: Execute "BEGIN" None :: stmts
             ++ [Execute "COMMIT" None;
                 LoggerInfo (String.append "ROLLBACK: " (message e));
                 Execute "ROLLBACK" None; cleanup_action (state c4)])).
Proof.
  pose proof (transaction_body_commit_fails processor _ _ _ _ _ _ _ _
                Hbegin Hproc Hcommit) as Hbody.
  cbn [message_of] in Hbody.
  split.
  - intros Hst. destruct (decide (state c3 = CONNECTED)); [contradiction|].
    unfold transaction.
    rewrite (ClientProperties.useConnection_run state pool_pop returnToPool
               removeFromPool _ _ _ _ _ _ _ _ Hpool Hpop Hbody).
    simpl. rewrite <- app_assoc. reflexivity.
  - intros Hst r c4 Hrb. destruct (decide (state c3 = CONNECTED)); [|contradiction].
    rewrite Hrb in Hbody. unfold transaction.
    rewrite (ClientProperties.useConnection_run state pool_pop returnToPool
               removeFromPool _ _ _ _ _ _ _ _ Hpool Hpop Hbody).
    simpl. rewrite <- app_assoc. reflexivity.
Qed.

(** X16. [transaction] returns a value only along the path on which
    everything succeeded: if it returns [v], then the client had a pool,
    the pool handed out a connection, [BEGIN] returned, the processor
    returned [v], [COMMIT] returned, and no rollback was run or logged. *)
Theorem transaction_returns_only_after_commit {T}
    (processor : TransactionProcessor _ _ T)
    (this this' : Client Pool) (v : T) (t : list Action)
    (Hret : transact processor this = (Returns v, this', t)) :
  exists (pool pool1 : Pool) (c0 c1 c2 c3 : Conn) (r1 r3 : ExecuteResult)
         (stmts : list Action),
    _pool this = Some pool
    /\ pool_pop pool = (Returns c0, pool1)
    /\ conn_execute "BEGIN" None c0 = (Returns r1, c1)
    /\ run processor c1 = (Returns v, c2, stmts)
    /\ conn_execute "COMMIT" None c2 = (Returns r3, c3)
    /\ t = PoolPop :: Execute "BEGIN" None :: stmts
             ++ [Execute "COMMIT" None; cleanup_action (state c3)].
Proof.
  unfold transaction, useConnection in Hret.
  destruct (_pool this) as [pool|] eqn:Hpool; [|discriminate].
  destruct (pool_pop pool) as [[c0|e] pool1] eqn:Hpop; [|discriminate].
  destruct (body processor c0) as [[o c3] tb] eqn:Hbody.
  assert (Ho : o = Returns v /\ t = PoolPop :: tb ++ [cleanup_action (state c3)]).
  { unfold cleanup_action.
    destruct (decide (state c3 = CLOSED)); inversion Hret; subst; auto. }
  destruct Ho as [-> ->].
  destruct (transaction_body_returns _ _ _ _ _ Hbody)
    as (c1 & c2 & r1 & r3 & stmts & Hb & Hp & Hc & ->).
  exists pool, pool1, c0, c1, c2, c3, r1, r3, stmts.
  repeat split; auto. simpl. rewrite <- app_assoc. reflexivity.
Qed.

(** X17. Whatever the processor and the server do, the first thing
    [transaction] runs on the connection it borrowed is [BEGIN], and the
    last thing the borrow does is to give the connection back or to
    remove it, by its state at that point. *)
Theorem transaction_begins_and_cleans_up {T}
    (processor : TransactionProcessor _ _ T)
    (this : Client Pool) (pool pool1 : Pool) (c0 : Conn)
    (Hpool : _pool this = Some pool)
    (Hpop : pool_pop pool = (Returns c0, pool1)) :
  exists (o : Outcome T) (c' : Conn) (mid : list Action),
    transact processor this =
      (o, mkClient (config this) (Some (cleaned c' pool1)),
       PoolPop :: Execute "BEGIN" None :: mid ++ [cleanup_action (state c')]).
Proof.
  destruct (transaction_body_begins processor c0) as (o & c' & rest & Hbody).
  exists o, c', rest. unfold transaction.
  rewrite (ClientProperties.useConnection_run state pool_pop returnToPool
             removeFromPool _ _ _ _ _ _ _ _ Hpool Hpop Hbody).
  reflexivity.
Qed.

(** X18. [query] and [execute] run exactly one statement on the borrowed
    connection, with the text and the parameters they were given, and
    return or raise exactly what the connection did. *)
Theorem query_and_execute_run_one_statement
    (sql : string) (params : option (list JsValue))
    (this : Client Pool) (pool pool1 : Pool) (c0 : Conn)
    (Hpool : _pool this = Some pool)
    (Hpop : pool_pop pool = (Returns c0, pool1)) :
  run_query sql params this =
    (fst (conn_query sql params c0),
     mkClient (config this)
              (Some (cleaned (snd (conn_query sql params c0)) pool1)),
     [PoolPop; Query sql params;
      cleanup_action (state (snd (conn_query sql params c0)))])
  /\ run_execute sql params this =
     (fst (conn_execute sql params c0),
      mkClient (config this)
               (Some (cleaned (snd (conn_execute sql params c0)) pool1)),
      [PoolPop; Execute sql params;
       cleanup_action (state (snd (conn_execute sql params c0)))]).
Proof.
  unfold query, execute. split.
  - rewrite (ClientProperties.useConnection_run state pool_pop returnToPool
               removeFromPool _ _ _ _ _ (snd (conn_query sql params c0))
               (fst (conn_query sql params c0))
               [Query sql params] Hpool Hpop); [reflexivity|].
    unfold connection_query. destruct (conn_query sql params c0); reflexivity.
  - rewrite (ClientProperties.useConnection_run state pool_pop returnToPool
               removeFromPool _ _ _ _ _ (snd (conn_execute sql params c0))
               (fst (conn_execute sql params c0))
               [Execute sql params] Hpool Hpop); [reflexivity|].
    unfold connection_execute. destruct (conn_execute sql params c0); reflexivity.
Qed.

(** X19. The config [Client.connect] keeps: a property the caller set is
    kept as given (also when it is [undefined]), one of the six defaults
    fills in where the caller set none, and nothing else is added. *)
Theorem connect_merges_config
    (config0 : ClientConfig) (this : Client Pool) (key : string) :
  config (connect new_ConnectionPool config0 this) !! key =
    match config0 !! key with
    | Some v => Some v
    | None => config_defaults !! key
    end
  /\ dom config_defaults =
     {[ "hostname"; "username"; "port"; "poolSize"; "timeout"; "idleTimeout" ]}.
Proof.
  split.
  - simpl. unfold spread_over. rewrite lookup_union.
    destruct (config0 !! key), (config_defaults !! key); reflexivity.
  - unfold config_defaults. rewrite !dom_insert_L, dom_empty_L. set_solver.
Qed.

(** X20. The size [Client.connect] makes the pool with: 1 when the caller
    sets no [poolSize], the caller's value when it is truthy, and 10 when
    the caller sets a falsy one (0, [undefined], ...). *)
Theorem connect_pool_size (config0 : ClientConfig) (this : Client Pool) :
  _pool (connect new_ConnectionPool config0 this) =
    Some (new_ConnectionPool
            (match config0 !! "poolSize" with
             | None => JsNumber 1
             | Some v => if truthy v then v else JsNumber 10
             end)).
Proof.
  unfold connect. simpl. unfold prop, spread_over. rewrite lookup_union.
  destruct (config0 !! "poolSize") as [v|]; reflexivity.
Qed.

(** X21. [Client.close] calls [close()] on the pool, if there is one, and
    forgets it, keeping the config: afterwards every borrow raises
    "Unconnected", and a second [close] does nothing. *)
Theorem close_forgets_pool {T U}
    (fn : M Conn Action T) (processor : TransactionProcessor _ _ U)
    (this : Client Pool) :
  snd (close pool_close this) = pool_close <$> _pool this
  /\ _pool (fst (close pool_close this)) = None
  /\ config (fst (close pool_close this)) = config this
  /\ borrow fn (fst (close pool_close this))
     = (Raises (mkError MysqlError "Unconnected"),
        fst (close pool_close this), [])
  /\ transact processor (fst (close pool_close this))
     = (Raises (mkError MysqlError "Unconnected"),
        fst (close pool_close this), [])
  /\ close pool_close (fst (close pool_close this))
     = (fst (close pool_close this), None).
Proof.
  unfold close, transaction, useConnection.
  destruct this as [cfg [pool|]]; simpl; repeat split; reflexivity.
Qed.

End WithCollaborators.

Import ClientScenarios MoreScenarios.

(** X12: a transaction and a query on a client before [connect]. *)
Lemma unconnected_client_raises_witness :
  sim_transaction healthy returns_seven new_client
    = (Raises (mkError MysqlError "Unconnected"), new_client, [])
  /\ sim_run_query "SELECT 1" None new_client
     = (Raises (mkError MysqlError "Unconnected"), new_client, []).
Proof.
  destruct (unconnected_client_raises sim_state healthy sim_query sim_pop
              sim_returnToPool sim_removeFromPool
              (ret 0) returns_seven "SELECT 1" None new_client eq_refl)
    as (_ & Hq & _ & Ht).
  split; [exact Ht | exact Hq].
Defined.

(** X13: a client whose pool has nothing to hand out. *)
Lemma pop_failure_skips_work_and_cleanup_witness :
  sim_useConnection (connection_execute healthy "SELECT 1" None) drained_client
  = (Raises (mkError JsError "Connection pool is closed"),
     drained_client, [PoolPop]).
Proof.
  apply (proj1 (pop_failure_skips_work_and_cleanup sim_state healthy sim_query
                  sim_pop sim_returnToPool sim_removeFromPool
                  (connection_execute healthy "SELECT 1" None)
                  drained_client [] []
                  (mkError JsError "Connection pool is closed")
                  eq_refl eq_refl)).
Defined.

(** X14: a server that refuses [BEGIN], and one whose session breaks on
    it. *)
Lemma begin_failure_skips_processor_witness :
  sim_transaction rejects_begin (run_one "UPDATE t SET x = 1") sim_client =
    (Raises begin_refused, Client.mkClient ∅ (Some [CONNECTED]),
     [PoolPop; Execute "BEGIN" None;
      LoggerInfo "ROLLBACK: Too many connections";
      Execute "ROLLBACK" None; ReturnToPool])
  /\ sim_transaction drops_on_begin (run_one "UPDATE t SET x = 1") sim_client =
     (Raises link_lost, Client.mkClient ∅ (Some []),
      [PoolPop; Execute "BEGIN" None; RemoveFromPool]).
Proof.
  split.
  - apply (proj2 (proj2 (begin_failure_skips_processor sim_state rejects_begin
             sim_query sim_pop sim_returnToPool sim_removeFromPool
             (run_one "UPDATE t SET x = 1") sim_client [CONNECTED] []
             CONNECTED CONNECTED begin_refused eq_refl eq_refl eq_refl))
             eq_refl (Returns 0) CONNECTED eq_refl).
  - apply (proj1 (proj2 (begin_failure_skips_processor sim_state drops_on_begin
             sim_query sim_pop sim_returnToPool sim_removeFromPool
             (run_one "UPDATE t SET x = 1") sim_client [CONNECTED] []
             CONNECTED CLOSED link_lost eq_refl eq_refl eq_refl))).
    discriminate.
Defined.

(** X15: a server that refuses [COMMIT], and one whose session breaks on
    it. *)
Lemma commit_failure_is_caught_witness :
  sim_transaction rejects_commit returns_seven sim_client =
    (Raises commit_failed, Client.mkClient ∅ (Some [CONNECTED]),
     [PoolPop; Execute "BEGIN" None; Execute "COMMIT" None;
      LoggerInfo "ROLLBACK: Deadlock found at COMMIT";
      Execute "ROLLBACK" None; ReturnToPool])
  /\ sim_transaction drops_on_commit returns_seven sim_client =
     (Raises link_lost, Client.mkClient ∅ (Some []),
      [PoolPop; Execute "BEGIN" None; Execute "COMMIT" None; RemoveFromPool]).
Proof.
  split.
  - apply (proj2 (commit_failure_is_caught sim_state rejects_commit sim_query
             sim_pop sim_returnToPool sim_removeFromPool
             returns_seven sim_client [CONNECTED] []
             CONNECTED CONNECTED CONNECTED CONNECTED 0 7 commit_failed []
             eq_refl eq_refl eq_refl eq_refl eq_refl)
             eq_refl 0 CONNECTED eq_refl).
  - apply (proj1 (commit_failure_is_caught sim_state drops_on_commit sim_query
             sim_pop sim_returnToPool sim_removeFromPool
             returns_seven sim_client [CONNECTED] []
             CONNECTED CONNECTED CONNECTED CLOSED 0 7 link_lost []
             eq_refl eq_refl eq_refl eq_refl eq_refl)).
    discriminate.
Defined.

(** X16: a transaction that returned, on the healthy server. *)
Lemma transaction_returns_only_after_commit_witness :
  exists (c2 c3 : SimConn) (r3 : nat) (stmts : list Client.Action),
    run_processor healthy sim_query (run_one "UPDATE t SET x = 1") CONNECTED
      = (Returns 0, c2, stmts)
    /\ healthy "COMMIT" None c2 = (Returns r3, c3).
Proof.
  destruct (transaction_returns_only_after_commit sim_state healthy sim_query
              sim_pop sim_returnToPool sim_removeFromPool
              (run_one "UPDATE t SET x = 1") sim_client
              (Client.mkClient ∅ (Some [CONNECTED])) 0
              [PoolPop; Execute "BEGIN" None; Execute "UPDATE t SET x = 1" None;
               Execute "COMMIT" None; ReturnToPool]
              eq_refl)
    as (pool & pool1 & c0 & c1 & c2 & c3 & r1 & r3 & stmts
        & Hpool & Hpop & Hb & Hp & Hc & _).
  inversion Hpool; subst pool. inversion Hpop; subst c0 pool1.
  inversion Hb; subst r1 c1.
  exists c2, c3, r3, stmts. split; [exact Hp | exact Hc].
Defined.

(** X17: a processor that throws, on a server that refuses [ROLLBACK]. *)
Lemma transaction_begins_and_cleans_up_witness :
  exists (o : Outcome nat) (c' : SimConn) (mid : list Client.Action),
    sim_transaction rejects_rollback throws_business_rule sim_client =
      (o, Client.mkClient ∅
            (Some (cleanup_pool sim_state sim_returnToPool sim_removeFromPool
                     c' [])),
       PoolPop :: Execute "BEGIN" None :: mid ++ [cleanup_action (sim_state c')]).
Proof.
  exact (transaction_begins_and_cleans_up sim_state rejects_rollback sim_query
           sim_pop sim_returnToPool sim_removeFromPool
           throws_business_rule sim_client [CONNECTED] [] CONNECTED
           eq_refl eq_refl).
Defined.

(** X18: an [UPDATE] that breaks the session, through [execute]. *)
Lemma query_and_execute_run_one_statement_witness :
  sim_run_execute drops_on_update "UPDATE t SET x = 1" None sim_client =
    (Raises link_lost, Client.mkClient ∅ (Some []),
     [PoolPop; Execute "UPDATE t SET x = 1" None; RemoveFromPool])
  /\ sim_run_query "SELECT 1" None sim_client =
     (Returns [], Client.mkClient ∅ (Some [CONNECTED]),
      [PoolPop; Query "SELECT 1" None; ReturnToPool]).
Proof.
  split.
  - exact (proj2 (query_and_execute_run_one_statement sim_state drops_on_update
                    sim_query sim_pop sim_returnToPool sim_removeFromPool
                    "UPDATE t SET x = 1" None sim_client [CONNECTED] []
                    CONNECTED eq_refl eq_refl)).
  - exact (proj1 (query_and_execute_run_one_statement sim_state healthy
                    sim_query sim_pop sim_returnToPool sim_removeFromPool
                    "SELECT 1" None sim_client [CONNECTED] []
                    CONNECTED eq_refl eq_refl)).
Defined.

End ClientBehaviour.
